(** * Flappy Bird (src/flappy.py): a shallow embedding and its properties

    The development follows the source top-down: the account store
    ([Score], [User], [UserDatabase]), the geometry borrowed from
    [pygame.Rect], the game objects ([Bird], [Pipe], [CollisionDetector])
    and the [Game] class with one iteration of [Game.running_loop].

    Conventions.
    - Python [int] is [Z]; [//] and [%] with a positive divisor are
      [Z.div] and [Z.modulo].
    - Python [float] is modelled by the exact rationals [Q], kept in
      lowest terms with [Qred].  The only operation of the game that
      produces a non-integer is [speed += 0.9]; no statement below depends
      on how that sum is rounded.
    - Objects that the program shares by reference (the four [Bird]
      instances, their [pygame.Rect]s, the [Pipe]s and the list of pipes)
      live in explicit stores and are named by identifiers.
    - The wall clock ([pygame.time.get_ticks]) and the random source
      ([random.randint]) are injected: the n-th call reads the n-th
      element of a sequence given from outside. *)

From Stdlib Require Import ZArith QArith Qreduction Lia Bool.
From stdpp Require Import gmap strings list fin_maps functions.

Local Open Scope Z_scope.

(** ** User management (flappy.py, lines 8-132) *)

Module Score.

Record t := mk { current_score : Z; high_score : Z }.

(** [Score.__init__] *)
Definition init : t := mk 0 0.

(** [Score.increment]: [self.current_score += 1] *)
Definition increment (s : t) : t :=
  mk (current_score s + 1) (high_score s).

(** [Score.reset]: [self.current_score = 0] *)
Definition reset (s : t) : t :=
  mk 0 (high_score s).

(** [Score.update_high_score] *)
Definition update_high_score (s : t) : t :=
  if current_score s >? high_score s
  then mk (current_score s) (current_score s)
  else s.

End Score.

Record User := mkUser {
  username : string;
  password : string;
  score : Score.t
}.

(** [User.__init__] *)
Definition User_init (name pw : string) : User := mkUser name pw Score.init.

(** The JSON object written for one user by [User.to_dict]. *)
Record UserDict := mkUserDict {
  d_username : string;
  d_password : string;
  d_score : Z;
  d_high_score : Z
}.

Definition to_dict (u : User) : UserDict :=
  mkUserDict (username u) (password u)
             (Score.current_score (score u)) (Score.high_score (score u)).

Module UserDatabase.

(** [users] is the dictionary [self.users]; [file] is the content of
    [self.db_filename] on disk ([None] while the file does not exist). *)
Record t := mk {
  users : gmap string User;
  file : option (gmap string UserDict)
}.

(** [save_users]: the whole dictionary is dumped to the file. *)
Definition save_users (db : t) : t :=
  mk (users db) (Some (to_dict <$> users db)).

(** [create_account] returns the new database and the boolean result. *)
Definition create_account (name pw : string) (db : t) : t * bool :=
  match users db !! name with
  | Some _ => (db, false)
  | None => (save_users (mk (<[name := User_init name pw]> (users db)) (file db)), true)
  end.

(** [login] *)
Definition login (name pw : string) (db : t) : bool :=
  match users db !! name with
  | Some u => bool_decide (password u = pw)
  | None => false
  end.

(** [user.score.high_score = new_score] on the stored [User] object. *)
Definition set_high (new_score : Z) (u : User) : User :=
  mkUser (username u) (password u)
         (Score.mk (Score.current_score (score u)) new_score).

(** [update_high_score] *)
Definition update_high_score (name : string) (new_score : Z) (db : t) : t :=
  match users db !! name with
  | Some user =>
      if new_score >? Score.high_score (score user)
      then save_users (mk (<[name := set_high new_score user]> (users db)) (file db))
      else db
  | None => db
  end.

(** [get_high_score] *)
Definition get_high_score (name : string) (db : t) : Z :=
  match users db !! name with
  | Some u => Score.high_score (score u)
  | None => 0
  end.

(** The high score recorded on disk for [name], if any. *)
Definition persisted_high_score (name : string) (db : t) : option Z :=
  f ← file db; d ← f !! name; Some (d_high_score d).

End UserDatabase.

(** ** Numbers and the injected sources *)

(** Conversion of a Python number to a C [int], as pygame does when a
    float is stored into a [Rect]: truncation towards zero. *)
Definition py_int (q : Q) : Z := Z.quot (Qnum q) (Z.pos (Qden q)).

(** [a < b] on Python numbers. *)
Definition Qlt_bool (a b : Q) : bool := negb (Qle_bool b a).

(** [random.randint(a, b)] computed from one raw draw of the source. *)
Definition randint (a b raw : Z) : Z := a + raw mod (b - a + 1).

(** ** Module constants (flappy.py, lines 462-472) *)

(** screen dimensions: the window is [set_mode((length, width))], so
    [length] is the horizontal and [width] the vertical size. *)
Definition length : Z := 1940.
Definition width : Z := 1200.

Definition PIPE_WIDTH : Z := 100.
Definition PIPE_HEIGHT : Z := 600.
Definition PIPE_GAP : Z := 220.
Definition PIPE_SPEED : Z := 7.

(** ** [pygame.Rect]: integer rectangles *)

Module Rect.

Record t := mk { x : Z; y : Z; w : Z; h : Z }.

(** the [center] property: [(x + (w >> 1), y + (h >> 1))] *)
Definition center (r : t) : Z * Z :=
  (x r + Z.shiftr (w r) 1, y r + Z.shiftr (h r) 1).

(** assignment to [center] moves the rectangle and keeps its size *)
Definition set_center (c : Z * Z) (r : t) : t :=
  mk (fst c - Z.shiftr (w r) 1) (snd c - Z.shiftr (h r) 1) (w r) (h r).

(** assignment to [x] *)
Definition set_x (v : Z) (r : t) : t := mk v (y r) (w r) (h r).

(** [a.colliderect(b)]: open-interval overlap on both axes; a rectangle
    of zero width or height collides with nothing. *)
Definition colliderect (a b : t) : bool :=
  if (w a =? 0) || (h a =? 0) || (w b =? 0) || (h b =? 0) then false
  else (Z.min (x a) (x a + w a) <? Z.max (x b) (x b + w b))
    && (Z.min (y a) (y a + h a) <? Z.max (y b) (y b + h b))
    && (Z.max (x a) (x a + w a) >? Z.min (x b) (x b + w b))
    && (Z.max (y a) (y a + h a) >? Z.min (y b) (y b + h b)).

End Rect.

(** ** Bird (flappy.py, lines 480-520) *)

(** The three image files used as bird skins. *)
Inductive Skin := blue_bird | green_bird | beige_bird.

(** The four [pygame.Rect] objects created by the four [Bird]
    constructors of a game.  A bird holds a reference to one of them. *)
Inductive RectId := R0 | R1 | R2 | R3.

Global Instance RectId_eq_dec : EqDecision RectId.
Proof. solve_decision. Defined.

Module Bird.

Record t := mk {
  x : Z;
  y : Q;
  image : Skin;
  rect : RectId;
  speed : Q;
  lives : Z
}.

(** [Bird.__init__]: returns the bird and the rectangle it creates,
    the 60x60 box of the scaled image centred on [(x, y)]. *)
Definition init (bx by_ : Z) (skin : Skin) (r : RectId) : t * Rect.t :=
  (mk bx (inject_Z by_) skin r 0%Q 3,
   Rect.set_center (bx, by_) (Rect.mk 0 0 60 60)).

(** [flap]: [self.speed = -9] *)
Definition flap (b : t) : t :=
  mk (x b) (y b) (image b) (rect b) (inject_Z (-9)) (lives b).

(** [apply_gravity]; [r] is the rectangle object [self.rect] refers to. *)
Definition apply_gravity (b : t) (r : Rect.t) : t * Rect.t :=
  let y' := Qred (y b + speed b)%Q in
  (mk (x b) y' (image b) (rect b) (Qred (speed b + (9 # 10))%Q) (lives b),
   Rect.set_center (x b, py_int y') r).

(** [reduce_life]: [self.lives -= 1] *)
Definition reduce_life (b : t) : t :=
  mk (x b) (y b) (image b) (rect b) (speed b) (lives b - 1).

End Bird.

(** ** Pipe (flappy.py, lines 522-560) *)

Module Pipe.

(** A pipe as left by [__init__]: only [width] and [height] exist. *)
Record bare := mkBare { b_width : Z; b_height : Z }.

(** A pipe after [generate_pipes]. *)
Record t := mk {
  width : Z;
  height : Z;
  x : Z;
  top : Rect.t;
  bottom : Rect.t
}.

(** [Pipe.__init__]; [raw] is the draw consumed by [random.randint]. *)
Definition init (raw : Z) : bare :=
  mkBare PIPE_WIDTH (randint 100 PIPE_HEIGHT raw).

(** [generate_pipes] *)
Definition generate_pipes (p : bare) : t :=
  let x := length in
  let top := Rect.mk x 0 (b_width p) (b_height p) in
  let height_bottom := length - PIPE_GAP - b_height p in
  let start_bottom := b_height p + PIPE_GAP in
  mk (b_width p) (b_height p) x top
    (Rect.mk x start_bottom (b_width p) height_bottom).

(** [move] *)
Definition move (p : t) : t :=
  let x' := x p - PIPE_SPEED in
  mk (width p) (height p) x' (Rect.set_x x' (top p)) (Rect.set_x x' (bottom p)).

(** [is_off_screen] (the source returns 1 or 0) *)
Definition is_off_screen (p : t) : bool := x p + width p <? 0.

End Pipe.

(** ** CollisionDetector (flappy.py, lines 562-596) *)

(** The four [Bird] objects of a game: the one first bound to
    [self.bird] and [self.bird1], [self.bird2], [self.bird3]. *)
Inductive BirdId := B0 | B1 | B2 | B3.

Global Instance BirdId_eq_dec : EqDecision BirdId.
Proof. solve_decision. Defined.

(** What [collision_detector.pipes] refers to: the very list object
    that [game.pipes] refers to, or another (older) list whose elements
    are the given pipe references. *)
Inductive PipesRef := GamePipes | Detached (ids : list nat).

Module CollisionDetector.

Record t := mk {
  bird : BirdId;
  pipes : PipesRef;
  screen_width : Z;
  screen_height : Z;
  score : Z
}.

(** One iteration of the loop over the pipes: the two [colliderect]
    tests, each of which can only raise the flag. *)
Definition pipe_step (brect : Rect.t) (collision_detected : bool) (pipe : Pipe.t) : bool :=
  let c1 := if Rect.colliderect brect (Pipe.top pipe) then true else collision_detected in
  if Rect.colliderect brect (Pipe.bottom pipe) then true else c1.

(** [detect_collision] once the references are resolved: [brect] is
    [self.bird.rect], [by_] is [self.bird.y], [ps] the pipes of
    [self.pipes] in order. *)
Definition detect (brect : Rect.t) (by_ : Q) (ps : list Pipe.t) (screen_height : Z) : bool :=
  let c := foldl (pipe_step brect) false ps in
  let c := if Qlt_bool by_ 0%Q then true else c in
  if Qlt_bool (inject_Z (screen_height - Rect.h brect)) by_ then true else c.

End CollisionDetector.

(** ** Game (flappy.py, lines 598-979) *)

Definition Color : Type := Z * Z * Z.

(** The three ground images. *)
Inductive Ground := iarba | flori | fluturi.

Inductive Key := K_r | K_SPACE | K_q | K_n | K_other.

(** The events returned by [pygame.event.get()]. *)
Inductive Event := QUIT | KEYDOWN (key : Key) | OtherEvent.

(** What one call produces when [sys.exit()] may be reached. *)
Inductive Outcome (A : Type) := Continue (a : A) | Exit.
Arguments Continue {A} a.
Arguments Exit {A}.

Module Game.

(** The attributes of a [Game] together with the objects they refer
    to.  [bird] says which of the four [Bird] objects [self.bird]
    is; [birds] and [rects] hold the state of these objects and of
    their rectangles; [pipe_objs] holds every [Pipe] object by
    allocation index and [pipes] is the list [self.pipes] of
    references into it.  [clock_calls] and [rand_calls] count the calls
    made so far to [pygame.time.get_ticks] and to [random.randint].
    The attributes that are assigned once to a constant
    ([screen_width], [screen_height], [background_color1..3],
    [ground_image1..3]) are constants below; the scroll offset of the
    ground, which only the renderer reads, is left out. *)
Record t := mk {
  background_color : Color;
  running : bool;
  game_started : bool;
  paused : bool;
  score_system : Score.t;
  bird : BirdId;
  birds : BirdId -> Bird.t;
  rects : RectId -> Rect.t;
  pipe_objs : list Pipe.t;
  pipes : list nat;
  last_pipe_time : Z;
  next_pipe_frequency : Z;
  collision_detector : CollisionDetector.t;
  ground_image : Ground;
  level_2_reached : bool;
  level_3_reached : bool;
  level_4_reached : bool;
  clock_calls : nat;
  rand_calls : nat
}.

Definition set_background_color (v : Color) (g : t) : t :=
  mk v (running g) (game_started g) (paused g) (score_system g) (bird g)
    (birds g) (rects g) (pipe_objs g) (pipes g) (last_pipe_time g)
    (next_pipe_frequency g) (collision_detector g) (ground_image g)
    (level_2_reached g) (level_3_reached g) (level_4_reached g)
    (clock_calls g) (rand_calls g).

Definition set_running (v : bool) (g : t) : t :=
  mk (background_color g) v (game_started g) (paused g) (score_system g)
    (bird g) (birds g) (rects g) (pipe_objs g) (pipes g) (last_pipe_time g)
    (next_pipe_frequency g) (collision_detector g) (ground_image g)
    (level_2_reached g) (level_3_reached g) (level_4_reached g)
    (clock_calls g) (rand_calls g).

Definition set_game_started (v : bool) (g : t) : t :=
  mk (background_color g) (running g) v (paused g) (score_system g)
    (bird g) (birds g) (rects g) (pipe_objs g) (pipes g) (last_pipe_time g)
    (next_pipe_frequency g) (collision_detector g) (ground_image g)
    (level_2_reached g) (level_3_reached g) (level_4_reached g)
    (clock_calls g) (rand_calls g).

Definition set_paused (v : bool) (g : t) : t :=
  mk (background_color g) (running g) (game_started g) v (score_system
     g) (bird g) (birds g) (rects g) (pipe_objs g) (pipes g) (last_pipe_time
     g) (next_pipe_frequency g) (collision_detector g) (ground_image g)
    (level_2_reached g) (level_3_reached g) (level_4_reached g)
    (clock_calls g) (rand_calls g).

Definition set_score_system (v : Score.t) (g : t) : t :=
  mk (background_color g) (running g) (game_started g) (paused g) v
    (bird g) (birds g) (rects g) (pipe_objs g) (pipes g) (last_pipe_time g)
    (next_pipe_frequency g) (collision_detector g) (ground_image g)
    (level_2_reached g) (level_3_reached g) (level_4_reached g)
    (clock_calls g) (rand_calls g).

Definition set_bird (v : BirdId) (g : t) : t :=
  mk (background_color g) (running g) (game_started g) (paused g)
    (score_system g) v (birds g) (rects g) (pipe_objs g) (pipes g)
    (last_pipe_time g) (next_pipe_frequency g) (collision_detector g)
    (ground_image g) (level_2_reached g) (level_3_reached g)
    (level_4_reached g) (clock_calls g) (rand_calls g).

Definition set_birds (v : BirdId -> Bird.t) (g : t) : t :=
  mk (background_color g) (running g) (game_started g) (paused g)
    (score_system g) (bird g) v (rects g) (pipe_objs g) (pipes g)
    (last_pipe_time g) (next_pipe_frequency g) (collision_detector g)
    (ground_image g) (level_2_reached g) (level_3_reached g)
    (level_4_reached g) (clock_calls g) (rand_calls g).

Definition set_rects (v : RectId -> Rect.t) (g : t) : t :=
  mk (background_color g) (running g) (game_started g) (paused g)
    (score_system g) (bird g) (birds g) v (pipe_objs g) (pipes g)
    (last_pipe_time g) (next_pipe_frequency g) (collision_detector g)
    (ground_image g) (level_2_reached g) (level_3_reached g)
    (level_4_reached g) (clock_calls g) (rand_calls g).

Definition set_pipe_objs (v : list Pipe.t) (g : t) : t :=
  mk (background_color g) (running g) (game_started g) (paused g)
    (score_system g) (bird g) (birds g) (rects g) v (pipes g)
    (last_pipe_time g) (next_pipe_frequency g) (collision_detector g)
    (ground_image g) (level_2_reached g) (level_3_reached g)
    (level_4_reached g) (clock_calls g) (rand_calls g).

Definition set_pipes (v : list nat) (g : t) : t :=
  mk (background_color g) (running g) (game_started g) (paused g)
    (score_system g) (bird g) (birds g) (rects g) (pipe_objs g) v
    (last_pipe_time g) (next_pipe_frequency g) (collision_detector g)
    (ground_image g) (level_2_reached g) (level_3_reached g)
    (level_4_reached g) (clock_calls g) (rand_calls g).

Definition set_last_pipe_time (v : Z) (g : t) : t :=
  mk (background_color g) (running g) (game_started g) (paused g)
    (score_system g) (bird g) (birds g) (rects g) (pipe_objs g) (pipes g) v
    (next_pipe_frequency g) (collision_detector g) (ground_image g)
    (level_2_reached g) (level_3_reached g) (level_4_reached g)
    (clock_calls g) (rand_calls g).

Definition set_next_pipe_frequency (v : Z) (g : t) : t :=
  mk (background_color g) (running g) (game_started g) (paused g)
    (score_system g) (bird g) (birds g) (rects g) (pipe_objs g) (pipes g)
    (last_pipe_time g) v (collision_detector g) (ground_image g)
    (level_2_reached g) (level_3_reached g) (level_4_reached g)
    (clock_calls g) (rand_calls g).

Definition set_collision_detector (v : CollisionDetector.t) (g : t) : t :=
  mk (background_color g) (running g) (game_started g) (paused g)
    (score_system g) (bird g) (birds g) (rects g) (pipe_objs g) (pipes g)
    (last_pipe_time g) (next_pipe_frequency g) v (ground_image g)
    (level_2_reached g) (level_3_reached g) (level_4_reached g)
    (clock_calls g) (rand_calls g).

Definition set_ground_image (v : Ground) (g : t) : t :=
  mk (background_color g) (running g) (game_started g) (paused g)
    (score_system g) (bird g) (birds g) (rects g) (pipe_objs g) (pipes g)
    (last_pipe_time g) (next_pipe_frequency g) (collision_detector g) v
    (level_2_reached g) (level_3_reached g) (level_4_reached g)
    (clock_calls g) (rand_calls g).

Definition set_level_2_reached (v : bool) (g : t) : t :=
  mk (background_color g) (running g) (game_started g) (paused g)
    (score_system g) (bird g) (birds g) (rects g) (pipe_objs g) (pipes g)
    (last_pipe_time g) (next_pipe_frequency g) (collision_detector g)
    (ground_image g) v (level_3_reached g) (level_4_reached g) (clock_calls
     g) (rand_calls g).

Definition set_level_3_reached (v : bool) (g : t) : t :=
  mk (background_color g) (running g) (game_started g) (paused g)
    (score_system g) (bird g) (birds g) (rects g) (pipe_objs g) (pipes g)
    (last_pipe_time g) (next_pipe_frequency g) (collision_detector g)
    (ground_image g) (level_2_reached g) v (level_4_reached g) (clock_calls
     g) (rand_calls g).

Definition set_level_4_reached (v : bool) (g : t) : t :=
  mk (background_color g) (running g) (game_started g) (paused g)
    (score_system g) (bird g) (birds g) (rects g) (pipe_objs g) (pipes g)
    (last_pipe_time g) (next_pipe_frequency g) (collision_detector g)
    (ground_image g) (level_2_reached g) (level_3_reached g) v (clock_calls
     g) (rand_calls g).

Definition set_clock_calls (v : nat) (g : t) : t :=
  mk (background_color g) (running g) (game_started g) (paused g)
    (score_system g) (bird g) (birds g) (rects g) (pipe_objs g) (pipes g)
    (last_pipe_time g) (next_pipe_frequency g) (collision_detector g)
    (ground_image g) (level_2_reached g) (level_3_reached g)
    (level_4_reached g) v (rand_calls g).

Definition set_rand_calls (v : nat) (g : t) : t :=
  mk (background_color g) (running g) (game_started g) (paused g)
    (score_system g) (bird g) (birds g) (rects g) (pipe_objs g) (pipes g)
    (last_pipe_time g) (next_pipe_frequency g) (collision_detector g)
    (ground_image g) (level_2_reached g) (level_3_reached g)
    (level_4_reached g) (clock_calls g) v.

Definition background_color1 : Color := (135, 206, 235).
Definition background_color2 : Color := (255, 240, 208).
Definition background_color3 : Color := (255, 209, 253).
Definition ground_image1 : Ground := iarba.
Definition ground_image2 : Ground := flori.
Definition ground_image3 : Ground := fluturi.
Definition screen_width : Z := length.
Definition screen_height : Z := width.

(** *** Access to the objects behind the references *)

(** the object [self.bird] *)
Definition the_bird (g : t) : Bird.t := birds g (bird g).

(** [self.bird.rect], the rectangle object of the active bird *)
Definition bird_rect (g : t) : Rect.t := rects g (Bird.rect (the_bird g)).

(** an in-place update of the object [self.bird] *)
Definition update_bird (f : Bird.t -> Bird.t) (g : t) : t :=
  set_birds (<[bird g := f (the_bird g)]> (birds g)) g.

(** the [Pipe] objects a list of references denotes *)
Definition resolve (objs : list Pipe.t) (ids : list nat) : list Pipe.t :=
  omap (fun i => objs !! i) ids.

(** the references held by the list [collision_detector.pipes] *)
Definition detector_pipes (g : t) : list nat :=
  match CollisionDetector.pipes (collision_detector g) with
  | GamePipes => pipes g
  | Detached ids => ids
  end.

(** the object [collision_detector.bird] and its rectangle *)
Definition detector_bird (g : t) : Bird.t :=
  birds g (CollisionDetector.bird (collision_detector g)).

Definition detector_rect (g : t) : Rect.t :=
  rects g (Bird.rect (detector_bird g)).

(** [self.collision_detector.detect_collision()] *)
Definition detect_collision (g : t) : bool :=
  CollisionDetector.detect
    (detector_rect g) (Bird.y (detector_bird g))
    (resolve (pipe_objs g) (detector_pipes g))
    (CollisionDetector.screen_height (collision_detector g)).

(** [self.bird.apply_gravity()] *)
Definition apply_gravity (g : t) : t :=
  let b := the_bird g in
  let moved := Bird.apply_gravity b (rects g (Bird.rect b)) in
  set_rects (<[Bird.rect b := snd moved]> (rects g))
            (set_birds (<[bird g := fst moved]> (birds g)) g).

(** *** Collisions and the soft reset *)

(** [reset_bird_and_pipes]; [self.pipes.clear()] empties the list
    object in place, so a detector that shares it sees it empty too. *)
Definition reset_bird_and_pipes (g : t) : t :=
  let g := update_bird (fun b =>
    Bird.mk (screen_width / 2) (Bird.y b) (Bird.image b) (Bird.rect b)
            (Bird.speed b) (Bird.lives b)) g in
  let g := update_bird (fun b =>
    Bird.mk (Bird.x b) (inject_Z (screen_height / 2)) (Bird.image b) (Bird.rect b)
            (Bird.speed b) (Bird.lives b)) g in
  let g := update_bird (fun b =>
    Bird.mk (Bird.x b) (Bird.y b) (Bird.image b) (Bird.rect b)
            0%Q (Bird.lives b)) g in
  let g := set_pipes [] g in
  set_game_started false g.

(** [self.collision_detector.pipes = self.pipes] *)
Definition share_pipes (g : t) : t :=
  let cd := collision_detector g in
  set_collision_detector
    (CollisionDetector.mk (CollisionDetector.bird cd) GamePipes
       (CollisionDetector.screen_width cd) (CollisionDetector.screen_height cd)
       (CollisionDetector.score cd)) g.

(** [check_collisions] *)
Definition check_collisions (g : t) : t :=
  let g := share_pipes g in
  if detect_collision g then
    let g := update_bird Bird.reduce_life g in
    if Bird.lives (the_bird g) =? 0 then set_running false g
    else reset_bird_and_pipes g
  else set_score_system (Score.increment (score_system g)) g.

(** *** Moving and pruning the pipes *)

(** the first loop of [move_pipes]: [pipe.move()] on every element *)
Definition move_all (ids : list nat) (objs : list Pipe.t) : list Pipe.t :=
  foldl (fun objs i => alter Pipe.move i objs) objs ids.

(** [not pipe.is_off_screen()] for the pipe a reference denotes *)
Definition on_screen (objs : list Pipe.t) (i : nat) : bool :=
  match objs !! i with
  | Some p => negb (Pipe.is_off_screen p)
  | None => false
  end.

(** [self.pipes = valid_pipes] binds [self.pipes] to a new list; a
    detector that shared the old list keeps the old one. *)
Definition rebind_pipes (valid_pipes : list nat) (g : t) : t :=
  let cd := collision_detector g in
  let kept :=
    match CollisionDetector.pipes cd with
    | GamePipes => Detached (pipes g)
    | Detached ids => Detached ids
    end in
  set_pipes valid_pipes
    (set_collision_detector
       (CollisionDetector.mk (CollisionDetector.bird cd) kept
          (CollisionDetector.screen_width cd) (CollisionDetector.screen_height cd)
          (CollisionDetector.score cd)) g).

(** [move_pipes] *)
Definition move_pipes (g : t) : t :=
  let g := set_pipe_objs (move_all (pipes g) (pipe_objs g)) g in
  let valid_pipes := List.filter (on_screen (pipe_objs g)) (pipes g) in
  rebind_pipes valid_pipes g.

(** *** Level stages *)

(** The block that each branch of [check_level_transition] runs to
    change the bird (lines 797-811, 824-838, 851-865); [new] is the
    object [self.bird2], [self.bird3] or [self.bird1]. *)
Definition change_bird (new : BirdId) (g : t) : t :=
  let bird_x := Bird.x (the_bird g) in
  let bird_y := Bird.y (the_bird g) in
  let bird_rect := Bird.rect (the_bird g) in
  let bird_rect_center := Rect.center (rects g bird_rect) in
  let bird_lives := Bird.lives (the_bird g) in
  let g := set_bird new g in
  let g := update_bird (fun b =>
    Bird.mk bird_x bird_y (Bird.image b) bird_rect (Bird.speed b) bird_lives) g in
  let g := set_rects
    (<[bird_rect := Rect.set_center bird_rect_center (rects g bird_rect)]> (rects g)) g in
  let cd := collision_detector g in
  set_collision_detector
    (CollisionDetector.mk new (CollisionDetector.pipes cd)
       (CollisionDetector.screen_width cd) (CollisionDetector.screen_height cd)
       (CollisionDetector.score cd)) g.

(** [current_lvl] of [check_level_transition] *)
Definition current_lvl (g : t) : Z :=
  let level_threshold := 300 in
  (Score.current_score (score_system g) / level_threshold) mod 3.

(** [check_level_transition] *)
Definition check_level_transition (g : t) : t :=
  if (current_lvl g =? 1) && negb (level_2_reached g) then
    let g := set_level_2_reached true g in
    let g := set_level_3_reached false g in
    let g := set_level_4_reached false g in
    let g := set_background_color background_color2 g in
    let g := set_ground_image ground_image2 g in
    change_bird B2 g
  else if (current_lvl g =? 2) && negb (level_3_reached g) then
    let g := set_level_3_reached true g in
    let g := set_level_2_reached false g in
    let g := set_level_4_reached false g in
    let g := set_background_color background_color3 g in
    let g := set_ground_image ground_image3 g in
    change_bird B3 g
  else if (current_lvl g =? 0) && negb (level_4_reached g) then
    let g := set_level_4_reached true g in
    let g := set_level_2_reached false g in
    let g := set_level_3_reached false g in
    let g := set_background_color background_color1 g in
    let g := set_ground_image ground_image1 g in
    change_bird B1 g
  else g.

(** *** Input *)

(** the body of the loop of [process_input] *)
Definition handle_event (g : t) (event : Event) : t :=
  let g := match event with QUIT => set_running false g | _ => g end in
  match event with
  | KEYDOWN key =>
      let g := match key with K_r => set_paused true g | _ => g end in
      match key with
      | K_SPACE =>
          let g := if game_started g then g else set_game_started true g in
          update_bird Bird.flap g
      | _ => g
      end
  | _ => g
  end.

(** [process_input]; [events] is what [pygame.event.get()] returns *)
Definition process_input (events : list Event) (g : t) : t :=
  foldl handle_event g events.

(** *** Operations that read the clock or the random source *)

Section Sources.

(** [get_ticks n] is the value returned by the n-th call of
    [pygame.time.get_ticks()]; [raw n] is the raw number behind the
    n-th call of [random.randint]. *)
Variable get_ticks : nat -> Z.
Variable raw : nat -> Z.

(** [pygame.time.get_ticks()]: the value the next call returns, and
    the game once the call is counted *)
Definition now (g : t) : Z := get_ticks (clock_calls g).

Definition clock_read (g : t) : t := set_clock_calls (S (clock_calls g)) g.

(** [random.randint(a, b)]: the value the next call returns, and the
    game once the call is counted *)
Definition random_randint (a b : Z) (g : t) : Z := randint a b (raw (rand_calls g)).

Definition random_drawn (g : t) : t := set_rand_calls (S (rand_calls g)) g.

(** [Pipe()] followed by [new_pipe.generate_pipes()]; the constructor
    makes the next call of [random.randint] *)
Definition new_pipe (g : t) : Pipe.t :=
  Pipe.generate_pipes (Pipe.init (raw (rand_calls g))).

(** [self.pipes.append(new_pipe)]: the object is allocated at the
    end of the store and its reference appended in place. *)
Definition append_pipe (p : Pipe.t) (g : t) : t :=
  let id := List.length (pipe_objs g) in
  set_pipes (pipes g ++ [id]) (set_pipe_objs (pipe_objs g ++ [p]) g).

(** [generate_pipes] *)
Definition generate_pipes (g : t) : t :=
  let time := now g - last_pipe_time g in
  let g := clock_read g in
  if time >? next_pipe_frequency g then
    let p := new_pipe g in
    let g := random_drawn g in
    let g := append_pipe p g in
    let g := set_last_pipe_time (now g) (clock_read g) in
    let g := set_next_pipe_frequency (random_randint 2500 4500 g) (random_drawn g) in
    if Score.current_score (score_system g) >? 4000 then
      set_next_pipe_frequency (random_randint 2000 3000 g) (random_drawn g)
    else if Score.current_score (score_system g) >? 10000 then
      set_next_pipe_frequency (random_randint 1500 2500 g) (random_drawn g)
    else g
  else g.

(** the four birds and their rectangles, as both [__init__] and
    [start_new_game] create them *)
Definition fresh_birds : BirdId -> Bird.t := fun id =>
  match id with
  | B0 => fst (Bird.init (length / 2) (width / 2) blue_bird R0)
  | B1 => fst (Bird.init (length / 2) (width / 2) blue_bird R1)
  | B2 => fst (Bird.init (length / 2) (width / 2) green_bird R2)
  | B3 => fst (Bird.init (length / 2) (width / 2) beige_bird R3)
  end.

Definition fresh_rects : RectId -> Rect.t := fun r =>
  match r with
  | R0 => snd (Bird.init (length / 2) (width / 2) blue_bird R0)
  | R1 => snd (Bird.init (length / 2) (width / 2) blue_bird R1)
  | R2 => snd (Bird.init (length / 2) (width / 2) green_bird R2)
  | R3 => snd (Bird.init (length / 2) (width / 2) beige_bird R3)
  end.

(** [start_new_game]: every attribute is rebuilt except the [Score]
    object, whose current score is zeroed at the end.  The new
    [self.pipes] is an empty list shared with the new detector. *)
Definition start_new_game (g : t) : t :=
  mk background_color1 true false false
     (Score.mk 0 (Score.high_score (score_system g)))
     B0 fresh_birds fresh_rects (pipe_objs g) []
     (now g) (random_randint 2500 4500 g)
     (CollisionDetector.mk B0 GamePipes length width 0)
     ground_image1 false false false
     (S (clock_calls g)) (S (rand_calls g)).

(** [Game.__init__], run when no call to either source has been made *)
Definition init : t :=
  mk background_color1 true false false Score.init
     B0 fresh_birds fresh_rects [] []
     (get_ticks 0) (randint 2500 4500 (raw 0))
     (CollisionDetector.mk B0 GamePipes length width 0)
     ground_image1 false false false 1%nat 1%nat.

(** *** One iteration of [running_loop] *)

(** the body of the event loop of the pause menu (lines 940-953);
    [K_q] ends the process at once *)
Definition pause_event (o : Outcome t) (event : Event) : Outcome t :=
  match o with
  | Exit => Exit
  | Continue g =>
      match event with
      | QUIT => Continue (set_running false g)
      | KEYDOWN K_r => Continue (set_paused false g)
      | KEYDOWN K_q => Exit
      | KEYDOWN K_n => Continue (start_new_game g)
      | _ => Continue g
      end
  end.

(** What the environment hands to one iteration: the events of the
    call of [pygame.event.get()] in [process_input] and those of the
    call made by the pause menu. *)
Record Input := mkInput {
  events : list Event;
  menu_events : list Event
}.

(** Lines 923-953: level check, input, rendering (of which only the
    clock read of [display_time_game] is kept) and the pause menu. *)
Definition before_active (inp : Input) (g : t) : Outcome t :=
  let g := check_level_transition g in
  let g := process_input (events inp) g in
  let g := clock_read g in
  if paused g then foldl pause_event (Continue g) (menu_events inp)
  else Continue g.

(** Lines 956-966: the work of an iteration when the game is started
    and not paused. *)
Definition active (username : string) (s : t * UserDatabase.t) : t * UserDatabase.t :=
  let g := fst s in
  let db := snd s in
  let g := generate_pipes g in
  let g := move_pipes g in
  let g := check_collisions g in
  let g := apply_gravity g in
  let db :=
    if Score.current_score (score_system g) >? Score.high_score (score_system g)
    then UserDatabase.update_high_score username (Score.current_score (score_system g)) db
    else db in
  (g, db).

(** the body of [while self.running] *)
Definition tick (username : string) (inp : Input) (s : t * UserDatabase.t)
  : Outcome (t * UserDatabase.t) :=
  match before_active inp (fst s) with
  | Exit => Exit
  | Continue g =>
      if game_started g && negb (paused g)
      then Continue (active username (g, snd s))
      else Continue (g, snd s)
  end.

(** [running_loop] over the inputs of successive iterations; it
    stops when [self.running] is false or the process exits. *)
Fixpoint running_loop (username : string) (inps : list Input) (s : t * UserDatabase.t)
  : Outcome (t * UserDatabase.t) :=
  match inps with
  | [] => Continue s
  | inp :: inps =>
      if running (fst s) then
        match tick username inp s with
        | Exit => Exit
        | Continue s => running_loop username inps s
        end
      else Continue s
  end.

End Sources.

End Game.

(** * Auxiliary definitions: concrete states and the wording of the statements *)

(** a clock that stays at 0 (no pipe ever falls due), one that shows
    5000 ms at every call, and two constant random sources *)
Definition clock_0 : nat -> Z := fun _ => 0.
Definition clock_5000 : nat -> Z := fun _ => 5000.
Definition draws_0 : nat -> Z := fun _ => 0.
Definition draws_1000 : nat -> Z := fun _ => 1000.

(** the game as constructed *)
Definition game_0 : Game.t := Game.init clock_0 draws_0.

(** an account store holding the single account alice, never saved *)
Definition db_alice : UserDatabase.t :=
  UserDatabase.mk {[ "alice"%string := User_init "alice" "secret" ]} None.

(** a game whose current score is 10001 *)
Definition game_10001 : Game.t :=
  Game.set_score_system (Score.mk 10001 0) game_0.

(** the actor's box intersects the top or the bottom rectangle of a pipe *)
Definition overlaps (brect : Rect.t) (pipe : Pipe.t) : bool :=
  Rect.colliderect brect (Pipe.top pipe) || Rect.colliderect brect (Pipe.bottom pipe).

(** the object [self.bird] placed at height [y] *)
Definition place_bird (y : Q) (g : Game.t) : Game.t :=
  Game.update_bird (fun b =>
    Bird.mk (Bird.x b) y (Bird.image b) (Bird.rect b) (Bird.speed b) (Bird.lives b)) g.

(** the actor exactly on the top boundary and exactly on the bottom
    boundary of the 1200-pixel screen, no pipe around *)
Definition game_top : Game.t := place_bird 0 game_0.
Definition game_bottom : Game.t := place_bird (inject_Z (1200 - 60)) game_0.

(** a game with one pipe, spawned and moved once, that the detector sees *)
Definition game_one_pipe : Game.t :=
  Game.share_pipes (Game.move_pipes (Game.generate_pipes clock_5000 draws_0 game_0)).

(** C3 as the specification words it: an actor exactly on a screen
    boundary is reported as collided. *)
Definition boundary_is_collision : Prop :=
  forall g : Game.t,
    let y := Bird.y (Game.detector_bird g) in
    let H := CollisionDetector.screen_height (Game.collision_detector g) in
    (y == 0 \/ y == inject_Z (H - Rect.h (Game.detector_rect g)))%Q ->
    Game.detect_collision g = true.

(** an iteration without events and one in which SPACE is pressed *)
Definition no_input : Game.Input := Game.mkInput [] [].
Definition press_space : Game.Input := Game.mkInput [KEYDOWN K_SPACE] [].

(** the state reached from [game_0], played by alice with a still clock,
    after the iterations fed with the given inputs *)
Definition after (inps : list Game.Input) : Game.t * UserDatabase.t :=
  match Game.running_loop clock_0 draws_0 "alice" inps (game_0, db_alice) with
  | Continue s => s
  | Exit => (game_0, db_alice)
  end.

(** one flap, then 46 iterations of free fall: the bird is at height
    1149.9, below the bottom boundary 1140, with its three lives *)
Definition game_fallen : Game.t := fst (after (press_space :: repeat no_input 46)).

(** the state on which [detect_collision] is called by an iteration
    whose active part starts in [g] (lines 957-959 and 668) *)
Definition at_check (get_ticks raw : nat -> Z) (g : Game.t) : Game.t :=
  Game.share_pipes (Game.move_pipes (Game.generate_pipes get_ticks raw g)).

(** the state in which the active part of an iteration starts, when the
    iteration begins in [g] with input [inp] and does not exit *)
Definition entering (inp : Game.Input) (g : Game.t) : Game.t :=
  match Game.before_active clock_0 draws_0 inp g with
  | Continue g1 => g1
  | Exit => g
  end.

(** the bird that [check_level_transition] hands over to in [g], when
    one of its three branches is taken *)
Definition fired_transition (g : Game.t) : option BirdId :=
  if (Game.current_lvl g =? 1) && negb (Game.level_2_reached g) then Some B2
  else if (Game.current_lvl g =? 2) && negb (Game.level_3_reached g) then Some B3
  else if (Game.current_lvl g =? 0) && negb (Game.level_4_reached g) then Some B1
  else None.

(** fifteen rounds of one flap and nineteen iterations of fall: 300
    iterations survived, the score is 300 and the bird moves at speed 9 *)
Definition flap_round : list Game.Input := press_space :: repeat no_input 19.
Definition game_300 : Game.t := fst (after (concat (repeat flap_round 15))).

(** C2 as the specification words it: the incoming bird has the
    position, box, vertical velocity and lives of the outgoing one, and
    the detector refers to it. *)
Definition hand_off_keeps_velocity : Prop :=
  forall (g : Game.t) (new : BirdId),
    fired_transition g = Some new ->
    let g' := Game.check_level_transition g in
    Bird.x (Game.the_bird g') = Bird.x (Game.the_bird g)
    /\ Bird.y (Game.the_bird g') = Bird.y (Game.the_bird g)
    /\ Game.bird_rect g' = Game.bird_rect g
    /\ Bird.speed (Game.the_bird g') = Bird.speed (Game.the_bird g)
    /\ Bird.lives (Game.the_bird g') = Bird.lives (Game.the_bird g)
    /\ CollisionDetector.bird (Game.collision_detector g') = Game.bird g'.

(** the game at the end of the active part of an iteration (lines
    957-962) that starts in [g] *)
Definition end_of_active (get_ticks raw : nat -> Z) (g : Game.t) : Game.t :=
  Game.apply_gravity (Game.check_collisions
    (Game.move_pipes (Game.generate_pipes get_ticks raw g))).

(** [idle g g']: [g'] is reached from [g] through iterations that do
    not exit and whose active part does not run, so through
    iterations without a collision check. *)
Inductive idle (get_ticks raw : nat -> Z) : Game.t -> Game.t -> Prop :=
| idle_refl (g : Game.t) : idle get_ticks raw g g
| idle_step (inp : Game.Input) (g g1 g' : Game.t) :
    Game.before_active get_ticks raw inp g = Continue g1 ->
    Game.game_started g1 && negb (Game.paused g1) = false ->
    idle get_ticks raw g1 g' ->
    idle get_ticks raw g g'.

(** the bird and its rectangle sit at the centre of the screen, and the
    detector looks at that bird *)
Definition centred (g : Game.t) : Prop :=
  CollisionDetector.bird (Game.collision_detector g) = Game.bird g
  /\ Rect.center (Game.bird_rect g) = (Game.screen_width / 2, Game.screen_height / 2).

(** C10 as stated: when a collision check resets the bird, the next
    collision check, in the first later iteration whose active part
    runs, still tests the rectangle as it was at the reset. *)
Definition first_check_after_reset_is_stale : Prop :=
  forall (get_ticks raw : nat -> Z) (inp : Game.Input) (g1 g2 g3 : Game.t),
    CollisionDetector.bird (Game.collision_detector g1) = Game.bird g1 ->
    Game.detect_collision (at_check get_ticks raw g1) = true ->
    Bird.lives (Game.the_bird g1) - 1 <> 0 ->
    idle get_ticks raw (end_of_active get_ticks raw g1) g2 ->
    Game.before_active get_ticks raw inp g2 = Continue g3 ->
    Game.game_started g3 = true ->
    Game.paused g3 = false ->
    Game.detector_rect (at_check get_ticks raw g3)
    = Game.detector_rect (at_check get_ticks raw g1).

(** the iteration in which the fallen bird is caught: where its active
    part starts, where it ends, and where the active part of the next
    iteration starts once SPACE is pressed *)
Definition game_caught : Game.t := entering no_input game_fallen.
Definition game_reset : Game.t := end_of_active clock_0 draws_0 game_caught.
Definition game_restarted : Game.t := entering press_space game_reset.

(** * Further definitions: the rest of the account store *)

(** A user object as [json.load] returns it: the keys [username] and
    [password], and the keys [score] and [high_score], either of which
    may be absent. *)
Record UserJson := mkUserJson {
  j_username : string;
  j_password : string;
  j_score : option Z;
  j_high_score : option Z
}.

(** what [json.load] reads back from an object written by [to_dict] *)
Definition json_of_dict (d : UserDict) : UserJson :=
  mkUserJson (d_username d) (d_password d) (Some (d_score d)) (Some (d_high_score d)).

(** the [User] built by [load_users] from one entry: the constructor,
    then the two scores with [user_data.get(key, 0)] *)
Definition load_user (user_data : UserJson) : User :=
  mkUser (j_username user_data) (j_password user_data)
         (Score.mk (default 0 (j_score user_data))
                   (default 0 (j_high_score user_data))).

(** [load_users] (lines 67-84); [data] is the parsed content of the
    file, [None] when the file does not exist. *)
Definition load_users (data : option (gmap string UserJson)) : gmap string User :=
  match data with
  | Some data => load_user <$> data
  | None => ∅
  end.

(** [UserDatabase.__init__] on the file left by an earlier database *)
Definition reopen (db : UserDatabase.t) : UserDatabase.t :=
  UserDatabase.mk
    (load_users (match UserDatabase.file db with
                 | Some written => Some (json_of_dict <$> written)
                 | None => None
                 end))
    (UserDatabase.file db).

(** the file holds exactly the accounts in memory *)
Definition saved (db : UserDatabase.t) : Prop :=
  UserDatabase.file db = Some (to_dict <$> UserDatabase.users db).

(** an empty store without file, and the store after alice has signed up *)
Definition db_empty : UserDatabase.t := UserDatabase.mk ∅ None.
Definition db_signed_up : UserDatabase.t :=
  fst (UserDatabase.create_account "alice" "secret" db_empty).

(** * Further definitions: the pipes *)

(** the pipes of [self.pipes], in order *)
Definition pipe_list (g : Game.t) : list Pipe.t :=
  Game.resolve (Game.pipe_objs g) (Game.pipes g).

(** [self.pipes] holds no pipe twice and only references to existing
    pipes *)
Definition pipes_valid (g : Game.t) : Prop :=
  NoDup (Game.pipes g)
  /\ forall i, i ∈ Game.pipes g -> (i < List.length (Game.pipe_objs g))%nat.

(** [not pipe.is_off_screen()] *)
Definition stays (p : Pipe.t) : bool := negb (Pipe.is_off_screen p).

(** a clock that advances 5000 ms from one call to the next *)
Definition clock_steps : nat -> Z := fun n => 5000 * Z.of_nat n.

(** a game in which a first pipe was spawned and moved 291 times, to the
    last position at which it is on the screen, and a second pipe has
    just been spawned *)
Definition game_two_pipes : Game.t :=
  Game.generate_pipes clock_steps draws_0
    (Nat.iter 291 Game.move_pipes (Game.generate_pipes clock_steps draws_0 game_0)).

(** * Further definitions: what every iteration keeps *)

(** the detector looks at the active bird and at the very list
    [self.pipes] *)
Definition in_sync (g : Game.t) : Prop :=
  CollisionDetector.bird (Game.collision_detector g) = Game.bird g
  /\ CollisionDetector.pipes (Game.collision_detector g) = GamePipes.

(** every bird rectangle has the size of the scaled image *)
Definition rects_60 (g : Game.t) : Prop :=
  forall r, Rect.w (Game.rects g r) = 60 /\ Rect.h (Game.rects g r) = 60.

(** the active bird has between 1 and 3 lives *)
Definition alive (g : Game.t) : Prop := 1 <= Bird.lives (Game.the_bird g) <= 3.

(** the lives are between 0 and 3, and none is left only when the game
    has stopped running *)
Definition lives_left (g : Game.t) : Prop :=
  0 <= Bird.lives (Game.the_bird g) <= 3
  /\ (Game.running g = true -> 1 <= Bird.lives (Game.the_bird g)).

(** at most one "reached" flag is set, and the theme and the active
    bird are those of the flag that is set *)
Definition themed (g : Game.t) : Prop :=
  (Game.level_2_reached g = true ->
     Game.level_3_reached g = false /\ Game.level_4_reached g = false
     /\ Game.background_color g = Game.background_color2
     /\ Game.ground_image g = Game.ground_image2 /\ Game.bird g = B2)
  /\ (Game.level_3_reached g = true ->
        Game.level_2_reached g = false /\ Game.level_4_reached g = false
        /\ Game.background_color g = Game.background_color3
        /\ Game.ground_image g = Game.ground_image3 /\ Game.bird g = B3)
  /\ (Game.level_4_reached g = true ->
        Game.level_2_reached g = false /\ Game.level_3_reached g = false
        /\ Game.background_color g = Game.background_color1
        /\ Game.ground_image g = Game.ground_image1 /\ Game.bird g = B1).

(** a play of a hundred iterations: a flap every tenth iteration, a
    pause and a resume in between *)
Definition pause_and_resume : Game.Input :=
  Game.mkInput [KEYDOWN K_r] [KEYDOWN K_r].
Definition some_play : list Game.Input :=
  concat (repeat (press_space :: repeat no_input 8 ++ [pause_and_resume]) 10).

(** * Further definitions: recognising events *)

Definition is_quit (e : Event) : bool :=
  match e with QUIT => true | _ => false end.

(** [event.type == KEYDOWN and event.key == key], for the four keys the
    game reads *)
Definition is_space (e : Event) : bool :=
  match e with KEYDOWN K_SPACE => true | _ => false end.
Definition is_r (e : Event) : bool :=
  match e with KEYDOWN K_r => true | _ => false end.
Definition is_q (e : Event) : bool :=
  match e with KEYDOWN K_q => true | _ => false end.

(** a game paused in mid-flight *)
Definition game_paused : Game.t := Game.set_paused true (fst (after [press_space])).

(** * Further definitions: the login and sign-up screens (lines 176-358) *)

(** The keys the two screens tell apart; [K_text] stands for every
    other key.  A key event carries [event.unicode]. *)
Inductive FormKey := K_TAB | K_RETURN | K_BACKSPACE | K_text.

Inductive FormEvent := F_QUIT | F_KEYDOWN (key : FormKey) (unicode : string) | F_other.

(** [active_input], which is ["username"] or ["password"] *)
Inductive Field := username_field | password_field.

(** the local variables of a screen *)
Record Form := mkForm {
  username_input : string;
  password_input : string;
  active_input : Field;
  error_message : string
}.

(** the variables as both screens initialise them *)
Definition empty_form : Form := mkForm "" "" username_field "".

(** [s[:-1]] *)
Definition drop_last (s : string) : string :=
  String.substring 0 (String.length s - 1) s.

(** [active_input = "password" if active_input == "username" else "username"] *)
Definition switch_field (f : Form) : Form :=
  mkForm (username_input f) (password_input f)
         (match active_input f with
          | username_field => password_field
          | password_field => username_field
          end)
         (error_message f).

(** the BACKSPACE branch; in the login screen its second test is
    [event.key == K_BACKSPACE], which holds there, in the sign-up screen
    it is [active_input == "password"], which holds there too *)
Definition backspace (f : Form) : Form :=
  match active_input f with
  | username_field =>
      mkForm (drop_last (username_input f)) (password_input f) (active_input f) (error_message f)
  | password_field =>
      mkForm (username_input f) (drop_last (password_input f)) (active_input f) (error_message f)
  end.

(** the last branch: [event.unicode] is appended to the active field *)
Definition type_text (unicode : string) (f : Form) : Form :=
  match active_input f with
  | username_field =>
      mkForm (String.append (username_input f) unicode) (password_input f)
             (active_input f) (error_message f)
  | password_field =>
      mkForm (username_input f) (String.append (password_input f) unicode)
             (active_input f) (error_message f)
  end.

Definition with_error (msg : string) (f : Form) : Form :=
  mkForm (username_input f) (password_input f) (active_input f) msg.

(** How far a screen gets on a finite sequence of events: it returns,
    the process exits on QUIT, or the screen is still waiting with the
    given variables. *)
Inductive Shown (A : Type) := Returned (a : A) | Quitted | Waiting (f : Form).
Arguments Returned {A} a.
Arguments Quitted {A}.
Arguments Waiting {A} f.

(** [display_login_screen]: the events of the successive calls of
    [pygame.event.get()], in order; drawing is left out. *)
Fixpoint display_login_screen (db : UserDatabase.t) (events : list FormEvent) (f : Form)
  : Shown string :=
  match events with
  | [] => Waiting f
  | F_QUIT :: _ => Quitted
  | F_KEYDOWN K_TAB _ :: events => display_login_screen db events (switch_field f)
  | F_KEYDOWN K_RETURN _ :: events =>
      if UserDatabase.login (username_input f) (password_input f) db
      then Returned (username_input f)
      else display_login_screen db events (with_error "Login failed. Try again." f)
  | F_KEYDOWN K_BACKSPACE _ :: events => display_login_screen db events (backspace f)
  | F_KEYDOWN K_text unicode :: events => display_login_screen db events (type_text unicode f)
  | F_other :: events => display_login_screen db events f
  end.

(** [display_signup_screen]; it returns once an account is created, and
    the result here is the database with that account.  The clock read
    that times the display of an error is left out. *)
Fixpoint display_signup_screen (db : UserDatabase.t) (events : list FormEvent) (f : Form)
  : Shown UserDatabase.t :=
  match events with
  | [] => Waiting f
  | F_QUIT :: _ => Quitted
  | F_KEYDOWN K_TAB _ :: events => display_signup_screen db events (switch_field f)
  | F_KEYDOWN K_RETURN _ :: events =>
      if bool_decide (username_input f = ""%string)
      then display_signup_screen db events (with_error "Username is required!" f)
      else if bool_decide (password_input f = ""%string)
      then display_signup_screen db events (with_error "Password is required!" f)
      else if snd (UserDatabase.create_account (username_input f) (password_input f) db)
      then Returned (fst (UserDatabase.create_account (username_input f) (password_input f) db))
      else display_signup_screen db events (with_error "Username already exists!" f)
  | F_KEYDOWN K_BACKSPACE _ :: events => display_signup_screen db events (backspace f)
  | F_KEYDOWN K_text unicode :: events => display_signup_screen db events (type_text unicode f)
  | F_other :: events => display_signup_screen db events f
  end.

(** the key events of typing the given pieces of text one after the other *)
Definition typing (pieces : list string) : list FormEvent :=
  map (F_KEYDOWN K_text) pieces.

(** the text the pieces add up to *)
Definition typed (pieces : list string) : string :=
  foldl String.append ""%string pieces.

(** * Properties *)

(** ** Score tracker *)

(** C8. [Score.update_high_score] sets [high_score] to the maximum of
    [high_score] and [current_score]; it never lowers [high_score], it
    leaves [current_score] alone, and a second call changes nothing.
    [Score.reset] zeroes [current_score] and keeps [high_score]. *)
Theorem score_update_high_score_max (s : Score.t) :
  Score.high_score (Score.update_high_score s)
    = Z.max (Score.high_score s) (Score.current_score s)
  /\ Score.high_score s <= Score.high_score (Score.update_high_score s)
  /\ Score.current_score (Score.update_high_score s) = Score.current_score s
  /\ Score.update_high_score (Score.update_high_score s) = Score.update_high_score s
  /\ Score.current_score (Score.reset s) = 0
  /\ Score.high_score (Score.reset s) = Score.high_score s.
Proof.
  destruct s as [c h]; unfold Score.update_high_score, Score.reset; cbn.
  destruct (Z.gtb_spec c h) as [Hgt | Hle]; cbn.
  - rewrite Z.gtb_ltb, Z.ltb_irrefl. repeat split; lia.
  - destruct (Z.gtb_spec c h); [lia |]. repeat split; lia.
Qed.

(** ** Account store *)

Section AccountStore.

Variable db : UserDatabase.t.
Variable name : string.

Lemma get_high_score_unknown :
  UserDatabase.users db !! name = None -> UserDatabase.get_high_score name db = 0.
Proof. unfold UserDatabase.get_high_score. now intros ->. Qed.

Lemma update_high_score_unknown new_score :
  UserDatabase.users db !! name = None ->
  UserDatabase.update_high_score name new_score db = db.
Proof. unfold UserDatabase.update_high_score. now intros ->. Qed.

Lemma update_high_score_not_higher new_score user :
  UserDatabase.users db !! name = Some user ->
  new_score <= Score.high_score (score user) ->
  UserDatabase.update_high_score name new_score db = db.
Proof.
  unfold UserDatabase.update_high_score. intros -> Hle.
  destruct (Z.gtb_spec new_score (Score.high_score (score user))); [lia | reflexivity].
Qed.

Lemma update_high_score_higher new_score user :
  UserDatabase.users db !! name = Some user ->
  Score.high_score (score user) < new_score ->
  let db' := UserDatabase.update_high_score name new_score db in
  UserDatabase.get_high_score name db' = new_score
  /\ UserDatabase.users db' = <[name := UserDatabase.set_high new_score user]> (UserDatabase.users db)
  /\ UserDatabase.file db' = Some (to_dict <$> UserDatabase.users db')
  /\ UserDatabase.persisted_high_score name db' = Some new_score.
Proof.
  unfold UserDatabase.update_high_score. intros -> Hlt.
  destruct (Z.gtb_spec new_score (Score.high_score (score user))); [| lia].
  cbn. unfold UserDatabase.get_high_score, UserDatabase.persisted_high_score. cbn.
  rewrite lookup_fmap, !lookup_insert_eq. cbn. auto.
Qed.

End AccountStore.

(** C9. [get_high_score] is 0 for a name without entry.
    [update_high_score] changes the store exactly when the name has an
    entry whose high score is strictly below the new score; it then
    records the new score in memory and rewrites the file from the
    updated dictionary, and in every other case the store, in memory and on
    disk, is left as it was. *)
Theorem account_store_high_score (db : UserDatabase.t) (name : string) (new_score : Z) :
  (UserDatabase.users db !! name = None -> UserDatabase.get_high_score name db = 0)
  /\ (UserDatabase.update_high_score name new_score db <> db
      <-> exists user, UserDatabase.users db !! name = Some user
                       /\ Score.high_score (score user) < new_score)
  /\ (forall user, UserDatabase.users db !! name = Some user ->
        Score.high_score (score user) < new_score ->
        let db' := UserDatabase.update_high_score name new_score db in
        UserDatabase.get_high_score name db' = new_score
        /\ UserDatabase.file db' = Some (to_dict <$> UserDatabase.users db')
        /\ UserDatabase.persisted_high_score name db' = Some new_score).
Proof.
  split; [apply get_high_score_unknown |]. split.
  - split.
    + intros Hne. destruct (UserDatabase.users db !! name) as [user |] eqn:Hu.
      * exists user. split; [reflexivity |].
        destruct (Z.lt_ge_cases (Score.high_score (score user)) new_score) as [| Hle]; [assumption |].
        exfalso. apply Hne. eapply update_high_score_not_higher; eauto.
      * exfalso. apply Hne. now apply update_high_score_unknown.
    + intros (user & Hu & Hlt) Heq.
      destruct (update_high_score_higher db name new_score user Hu Hlt) as (Hget & _).
      rewrite Heq in Hget. unfold UserDatabase.get_high_score in Hget.
      rewrite Hu in Hget. lia.
  - intros user Hu Hlt.
    destruct (update_high_score_higher db name new_score user Hu Hlt) as (? & ? & ? & ?).
    auto.
Qed.

Lemma account_store_high_score_witness :
  UserDatabase.get_high_score "bob" db_alice = 0
  /\ UserDatabase.get_high_score "alice"
       (UserDatabase.update_high_score "alice" 150 db_alice) = 150
  /\ UserDatabase.persisted_high_score "alice"
       (UserDatabase.update_high_score "alice" 150 db_alice) = Some 150.
Proof.
  split.
  - apply (proj1 (account_store_high_score db_alice "bob" 0)). reflexivity.
  - destruct (proj2 (proj2 (account_store_high_score db_alice "alice" 150))
                (User_init "alice" "secret")) as (Hget & _ & Hdisk).
    + reflexivity.
    + cbn. lia.
    + split; assumption.
Defined.

(** The scenario of the specification: a later run ending at 90 leaves
    the stored 150 in place. *)
Example alice_150_then_90 :
  let db := UserDatabase.update_high_score "alice" 150 db_alice in
  UserDatabase.update_high_score "alice" 90 db = db.
Proof.
  cbn zeta. eapply update_high_score_not_higher.
  - reflexivity.
  - cbn. lia.
Qed.

(** ** Pipe geometry *)

Lemma randint_range (a b raw : Z) : a <= b -> a <= randint a b raw <= b.
Proof.
  intros Hab. unfold randint.
  pose proof (Z.mod_pos_bound raw (b - a + 1)). lia.
Qed.

(** C1. A pipe whose gap starts at [g] has a top bar of height [g] and a
    bottom bar starting at [g + PIPE_GAP]; the height of the bottom bar
    is computed from [length], the horizontal size of the window (1940),
    and so exceeds the rest of the screen height [width - PIPE_GAP - g]
    by [length - width = 740]. *)
Theorem pipe_bottom_height_uses_length (raw : Z) :
  let pipe := Pipe.generate_pipes (Pipe.init raw) in
  let g := Pipe.height pipe in
  100 <= g <= Game.screen_height - PIPE_GAP
  /\ Rect.h (Pipe.top pipe) = g
  /\ Rect.y (Pipe.bottom pipe) = g + PIPE_GAP
  /\ Rect.h (Pipe.bottom pipe) = length - PIPE_GAP - g
  /\ Rect.h (Pipe.bottom pipe) = (Game.screen_height - PIPE_GAP - g) + 740
  /\ Rect.h (Pipe.bottom pipe) <> Game.screen_height - PIPE_GAP - g.
Proof.
  cbn.
  pose proof (randint_range 100 PIPE_HEIGHT raw) as Hr.
  unfold PIPE_HEIGHT, PIPE_GAP, Game.screen_height, width, length in *.
  lia.
Qed.

(** the pipe drawn with gap start 100 *)
Example pipe_gap_100 :
  Pipe.generate_pipes (Pipe.init 0)
  = Pipe.mk 100 100 1940 (Rect.mk 1940 0 100 100) (Rect.mk 1940 320 100 1620).
Proof. reflexivity. Qed.

(** ** Spawn interval *)

Section SpawnInterval.

Variable get_ticks : nat -> Z.
Variable raw : nat -> Z.
Variable g : Game.t.

Let time := get_ticks (Game.clock_calls g) - Game.last_pipe_time g.
Let current := Score.current_score (Game.score_system g).

Lemma generate_pipes_not_due :
  time <= Game.next_pipe_frequency g ->
  Game.next_pipe_frequency (Game.generate_pipes get_ticks raw g)
  = Game.next_pipe_frequency g.
Proof.
  subst time. intros Hle. unfold Game.generate_pipes. cbn.
  destruct (Z.gtb_spec (Game.now get_ticks g - Game.last_pipe_time g)
              (Game.next_pipe_frequency g)); [unfold Game.now in *; lia | reflexivity].
Qed.

(** Once a pipe is spawned, the next interval is the second draw
    after the pipe's own, from 2500..4500, when the score is at most
    4000, and the third, from 2000..3000, for every higher score. *)
Lemma generate_pipes_frequency :
  Game.next_pipe_frequency g < time ->
  Game.next_pipe_frequency (Game.generate_pipes get_ticks raw g)
  = if current >? 4000
    then randint 2000 3000 (raw (S (S (Game.rand_calls g))))
    else randint 2500 4500 (raw (S (Game.rand_calls g))).
Proof.
  subst time current. intros Hlt. unfold Game.generate_pipes. cbn.
  destruct (Z.gtb_spec (Game.now get_ticks g - Game.last_pipe_time g)
              (Game.next_pipe_frequency g)); [| unfold Game.now in *; lia].
  cbn.
  destruct (Z.gtb_spec (Score.current_score (Game.score_system g)) 4000) as [H4 | H4]; cbn.
  - reflexivity.
  - destruct (Z.gtb_spec (Score.current_score (Game.score_system g)) 10000); [lia |].
    reflexivity.
Qed.

Lemma generate_pipes_frequency_above_10000 :
  Game.next_pipe_frequency g < time ->
  10000 < current ->
  Game.next_pipe_frequency (Game.generate_pipes get_ticks raw g)
  = randint 2000 3000 (raw (S (S (Game.rand_calls g)))).
Proof.
  intros Hlt Hc. rewrite generate_pipes_frequency by assumption.
  destruct (Z.gtb_spec current 4000); [reflexivity | lia].
Qed.

End SpawnInterval.

(** C4. With the score at 10001, above the second band, a spawn draws
    the next interval from 2000..3000, the range of the first band: here
    it is 3000 ms, which the range 1500..2500 of the second band
    excludes. *)
Theorem spawn_interval_second_band_unreached :
  let g := Game.generate_pipes clock_5000 draws_1000 game_10001 in
  Score.current_score (Game.score_system game_10001) = 10001
  /\ List.length (Game.pipes g) = 1%nat
  /\ Game.next_pipe_frequency g = randint 2000 3000 1000
  /\ Game.next_pipe_frequency g = 3000
  /\ ~ (1500 <= Game.next_pipe_frequency g <= 2500).
Proof.
  cbn zeta. repeat split; try reflexivity.
  intros [_ H]. vm_compute in H. apply H. reflexivity.
Qed.

(** ** Collision detection *)

Lemma Qlt_bool_true (a b : Q) : Qlt_bool a b = true <-> (a < b)%Q.
Proof.
  unfold Qlt_bool. rewrite negb_true_iff, <- not_true_iff_false, Qle_bool_iff.
  split; [apply Qnot_le_lt | apply Qlt_not_le].
Qed.

Lemma Qlt_bool_false (a b : Q) : Qlt_bool a b = false <-> (b <= a)%Q.
Proof.
  unfold Qlt_bool. rewrite negb_false_iff. apply Qle_bool_iff.
Qed.

Section Detect.

Variable brect : Rect.t.

(** The loop over the pipes raises the flag exactly when some pipe
    overlaps the actor's box, and never lowers it. *)
Lemma foldl_pipe_step (ps : list Pipe.t) (c : bool) :
  foldl (CollisionDetector.pipe_step brect) c ps = c || existsb (overlaps brect) ps.
Proof.
  revert c. induction ps as [| p ps IH]; intros c; cbn.
  - now rewrite orb_false_r.
  - rewrite IH. unfold CollisionDetector.pipe_step, overlaps.
    destruct (Rect.colliderect brect (Pipe.top p)),
             (Rect.colliderect brect (Pipe.bottom p)), c; reflexivity.
Qed.

(** [detect_collision] as a disjunction: a pipe overlap, or the
    actor above 0, or the actor below [screen_height - height]. *)
Lemma detect_spec (y : Q) (ps : list Pipe.t) (H : Z) :
  CollisionDetector.detect brect y ps H
  = existsb (overlaps brect) ps
    || Qlt_bool y 0 || Qlt_bool (inject_Z (H - Rect.h brect)) y.
Proof.
  unfold CollisionDetector.detect. rewrite foldl_pipe_step. cbn.
  destruct (existsb _ ps), (Qlt_bool y 0), (Qlt_bool _ y); reflexivity.
Qed.

Lemma existsb_overlaps_false (ps : list Pipe.t) :
  (forall pipe, pipe ∈ ps ->
     Rect.colliderect brect (Pipe.top pipe) = false
     /\ Rect.colliderect brect (Pipe.bottom pipe) = false) ->
  existsb (overlaps brect) ps = false.
Proof.
  intros Hno. apply not_true_iff_false. intros Hex.
  apply existsb_exists in Hex as (p & Hin & Hov).
  apply list_elem_of_In in Hin. destruct (Hno p Hin) as [Ht Hb].
  unfold overlaps in Hov. rewrite Ht, Hb in Hov. discriminate.
Qed.

End Detect.

(** C7. An actor strictly between the two screen boundaries whose box
    overlaps neither rectangle of any pipe is not reported as collided. *)
Theorem detect_collision_inside_no_overlap (g : Game.t) :
  let y := Bird.y (Game.detector_bird g) in
  let brect := Game.detector_rect g in
  let H := CollisionDetector.screen_height (Game.collision_detector g) in
  (0 < y)%Q ->
  (y < inject_Z (H - Rect.h brect))%Q ->
  (forall pipe, pipe ∈ Game.resolve (Game.pipe_objs g) (Game.detector_pipes g) ->
     Rect.colliderect brect (Pipe.top pipe) = false
     /\ Rect.colliderect brect (Pipe.bottom pipe) = false) ->
  Game.detect_collision g = false.
Proof.
  intros y brect H Htop Hbottom Hpipes. subst y brect H.
  unfold Game.detect_collision. rewrite detect_spec.
  rewrite (existsb_overlaps_false _ _ Hpipes). cbn.
  apply orb_false_iff. split; apply Qlt_bool_false; now apply Qlt_le_weak.
Qed.

Lemma detect_collision_inside_no_overlap_witness :
  Game.detect_collision game_one_pipe = false.
Proof.
  apply detect_collision_inside_no_overlap.
  - reflexivity.
  - reflexivity.
  - intros pipe Hin.
    assert (Game.resolve (Game.pipe_objs game_one_pipe) (Game.detector_pipes game_one_pipe)
            = [Pipe.mk 100 100 1933 (Rect.mk 1933 0 100 100) (Rect.mk 1933 320 100 1620)])
      as E by reflexivity.
    rewrite E in Hin. apply list_elem_of_singleton in Hin. subst pipe.
    split; reflexivity.
Defined.

(** C3, counterexample. On the top boundary, with no pipe, the detector
    answers false. *)
Lemma boundary_is_collision_fails : ~ boundary_is_collision.
Proof.
  intros Hclaim. specialize (Hclaim game_top).
  assert (Game.detect_collision game_top = false) as Hfalse by reflexivity.
  rewrite Hclaim in Hfalse; [discriminate |].
  left. reflexivity.
Qed.

(** the same on the bottom boundary *)
Example bottom_boundary_no_collision :
  Bird.y (Game.detector_bird game_bottom) = inject_Z (Game.screen_height - 60)
  /\ Game.detect_collision game_bottom = false.
Proof. split; reflexivity. Qed.

(** C3, amended. The boundary comparison is strict.  On a screen at
    least as high as the actor, an actor exactly on a boundary is
    reported as collided exactly when its box overlaps a pipe, so not at
    all when no pipe overlaps; an actor above 0 or below
    [screen_height - height] always is. *)
Theorem detect_collision_boundary_strict (g : Game.t) :
  let y := Bird.y (Game.detector_bird g) in
  let brect := Game.detector_rect g in
  let H := CollisionDetector.screen_height (Game.collision_detector g) in
  let ps := Game.resolve (Game.pipe_objs g) (Game.detector_pipes g) in
  (0 <= H - Rect.h brect ->
   (y == 0 \/ y == inject_Z (H - Rect.h brect))%Q ->
   Game.detect_collision g = existsb (overlaps brect) ps
   /\ (existsb (overlaps brect) ps = false -> Game.detect_collision g = false))
  /\ ((y < 0 \/ inject_Z (H - Rect.h brect) < y)%Q ->
      Game.detect_collision g = true).
Proof.
  intros y brect H ps. unfold Game.detect_collision. rewrite detect_spec.
  fold y brect H ps. split.
  - intros Hfit Hboundary.
    assert (0 <= inject_Z (H - Rect.h brect))%Q as HfitQ
      by (rewrite <- (Zle_Qle 0); exact Hfit).
    assert (Qlt_bool y 0 = false /\ Qlt_bool (inject_Z (H - Rect.h brect)) y = false)
      as [-> ->].
    { split; apply Qlt_bool_false; destruct Hboundary as [-> | ->];
        try apply Qle_refl; assumption. }
    rewrite !orb_false_r. split; [reflexivity | tauto].
  - intros [Hlt | Hlt]; apply Qlt_bool_true in Hlt; rewrite Hlt.
    + now rewrite orb_true_r.
    + now rewrite orb_true_r.
Qed.

Lemma detect_collision_boundary_strict_witness :
  Game.detect_collision game_top = false
  /\ Game.detect_collision (place_bird (inject_Z (-1)) game_0) = true.
Proof.
  split.
  - apply (proj1 (detect_collision_boundary_strict game_top)).
    + vm_compute. discriminate.
    + left. reflexivity.
    + reflexivity.
  - apply (proj2 (detect_collision_boundary_strict (place_bird (inject_Z (-1)) game_0))).
    left. reflexivity.
Defined.

(** ** Frame lemmas: what each operation leaves alone *)

Lemma the_bird_update_bird (f : Bird.t -> Bird.t) (g : Game.t) :
  Game.the_bird (Game.update_bird f g) = f (Game.the_bird g).
Proof. unfold Game.the_bird, Game.update_bird. cbn. apply fn_lookup_insert. Qed.

Lemma birds_update_bird_rect (f : Bird.t -> Bird.t) (g : Game.t) :
  (forall b, Bird.rect (f b) = Bird.rect b) ->
  forall id, Bird.rect (Game.birds (Game.update_bird f g) id) = Bird.rect (Game.birds g id).
Proof.
  intros Hf id. unfold Game.update_bird. cbn.
  destruct (decide (Game.bird g = id)) as [<- | Hne].
  - rewrite fn_lookup_insert. apply Hf.
  - now rewrite fn_lookup_insert_ne.
Qed.

Lemma the_bird_reset_bird_and_pipes (g : Game.t) :
  Game.the_bird (Game.reset_bird_and_pipes g)
  = Bird.mk (Game.screen_width / 2) (inject_Z (Game.screen_height / 2))
            (Bird.image (Game.the_bird g)) (Bird.rect (Game.the_bird g))
            0%Q (Bird.lives (Game.the_bird g)).
Proof.
  unfold Game.reset_bird_and_pipes.
  change (Game.the_bird (Game.set_game_started false (Game.set_pipes [] ?h)))
    with (Game.the_bird h).
  rewrite !the_bird_update_bird. reflexivity.
Qed.

(** ** Soft reset *)

(** C6. A collision that leaves the bird at least one life puts it at
    the centre of the screen with zero speed, empties the list of pipes
    (the detector's too), clears [game_started] and leaves [running]
    and the whole score system, so the current score, as they were. *)
Theorem soft_reset_after_collision (g : Game.t) :
  Game.detect_collision (Game.share_pipes g) = true ->
  1 <= Bird.lives (Game.the_bird g) - 1 ->
  let g' := Game.check_collisions g in
  Bird.x (Game.the_bird g') = Game.screen_width / 2
  /\ Bird.y (Game.the_bird g') = inject_Z (Game.screen_height / 2)
  /\ Bird.speed (Game.the_bird g') = 0%Q
  /\ Bird.lives (Game.the_bird g') = Bird.lives (Game.the_bird g) - 1
  /\ Game.pipes g' = []
  /\ Game.detector_pipes g' = []
  /\ Game.game_started g' = false
  /\ Game.running g' = Game.running g
  /\ Game.score_system g' = Game.score_system g.
Proof.
  intros Hhit Hlives g'. subst g'. unfold Game.check_collisions. rewrite Hhit.
  rewrite the_bird_update_bird.
  change (Bird.lives (Bird.reduce_life (Game.the_bird (Game.share_pipes g))))
    with (Bird.lives (Game.the_bird g) - 1).
  destruct (Z.eqb_spec (Bird.lives (Game.the_bird g) - 1) 0) as [E | _]; [lia |].
  rewrite the_bird_reset_bird_and_pipes, the_bird_update_bird. cbn.
  repeat split; reflexivity.
Qed.

Lemma soft_reset_after_collision_witness :
  Bird.x (Game.the_bird (Game.check_collisions game_fallen)) = 970
  /\ Bird.y (Game.the_bird (Game.check_collisions game_fallen)) = inject_Z 600
  /\ Bird.speed (Game.the_bird (Game.check_collisions game_fallen)) = 0%Q
  /\ Bird.lives (Game.the_bird (Game.check_collisions game_fallen)) = 2
  /\ Game.pipes (Game.check_collisions game_fallen) = []
  /\ Game.detector_pipes (Game.check_collisions game_fallen) = []
  /\ Game.game_started (Game.check_collisions game_fallen) = false
  /\ Game.running (Game.check_collisions game_fallen) = true
  /\ Game.score_system (Game.check_collisions game_fallen) = Score.mk 47 0.
Proof.
  apply (soft_reset_after_collision game_fallen).
  - vm_compute. reflexivity.
  - vm_compute. discriminate.
Defined.

(** ** Score per iteration *)

Section ScoreFrame.

Variable get_ticks : nat -> Z.
Variable raw : nat -> Z.

Lemma score_check_level_transition (g : Game.t) :
  Game.score_system (Game.check_level_transition g) = Game.score_system g.
Proof.
  unfold Game.check_level_transition.
  destruct (_ && _); [reflexivity |].
  destruct (_ && _); [reflexivity |].
  destruct (_ && _); reflexivity.
Qed.

Lemma score_handle_event (g : Game.t) (event : Event) :
  Game.score_system (Game.handle_event g event) = Game.score_system g.
Proof.
  unfold Game.handle_event.
  destruct event as [| [] |]; try reflexivity.
  destruct (Game.game_started g); reflexivity.
Qed.

Lemma score_process_input (events : list Event) (g : Game.t) :
  Game.score_system (Game.process_input events g) = Game.score_system g.
Proof.
  unfold Game.process_input. revert g.
  induction events as [| e events IH]; intros g; cbn; [reflexivity |].
  rewrite IH. apply score_handle_event.
Qed.

Lemma score_generate_pipes (g : Game.t) :
  Game.score_system (Game.generate_pipes get_ticks raw g) = Game.score_system g.
Proof.
  unfold Game.generate_pipes. cbn.
  destruct (_ >? _); [| reflexivity]. cbn.
  destruct (_ >? _); [reflexivity |].
  destruct (_ >? _); reflexivity.
Qed.

Lemma score_move_pipes (g : Game.t) :
  Game.score_system (Game.move_pipes g) = Game.score_system g.
Proof. reflexivity. Qed.

Lemma score_apply_gravity (g : Game.t) :
  Game.score_system (Game.apply_gravity g) = Game.score_system g.
Proof. reflexivity. Qed.

(** [check_collisions] increments the score when the detector
    answers false and leaves it alone when it answers true. *)
Lemma score_check_collisions (g : Game.t) :
  Game.score_system (Game.check_collisions g)
  = if Game.detect_collision (Game.share_pipes g)
    then Game.score_system g
    else Score.increment (Game.score_system g).
Proof.
  unfold Game.check_collisions.
  destruct (Game.detect_collision (Game.share_pipes g)); [| reflexivity].
  destruct (_ =? _); reflexivity.
Qed.

(** In the pause menu the score changes only through
    [start_new_game], which leaves the game not started. *)
Lemma score_pause_menu (s0 : Score.t) (events : list Event) (o : Outcome Game.t) :
  match o with
  | Continue g => Game.game_started g = false \/ Game.score_system g = s0
  | Exit => True
  end ->
  match foldl (Game.pause_event get_ticks raw) o events with
  | Continue g => Game.game_started g = false \/ Game.score_system g = s0
  | Exit => True
  end.
Proof.
  revert o. induction events as [| e events IH]; intros o Ho; cbn; [exact Ho |].
  apply IH. destruct o as [g |]; [| exact I].
  destruct e as [| [] |]; cbn; try exact Ho; try exact I.
  left. reflexivity.
Qed.

Lemma score_before_active (inp : Game.Input) (g g1 : Game.t) :
  Game.before_active get_ticks raw inp g = Continue g1 ->
  Game.game_started g1 = true ->
  Game.score_system g1 = Game.score_system g.
Proof.
  unfold Game.before_active. intros Hb Hstarted.
  set (g0 := Game.clock_read
               (Game.process_input (Game.events inp) (Game.check_level_transition g))) in *.
  assert (Game.score_system g0 = Game.score_system g) as Hg0.
  { subst g0. cbn. now rewrite score_process_input, score_check_level_transition. }
  destruct (Game.paused g0).
  - pose proof (score_pause_menu (Game.score_system g) (Game.menu_events inp) (Continue g0)
                  (or_intror Hg0)) as Hmenu.
    rewrite Hb in Hmenu. destruct Hmenu as [Hoff | Heq]; [congruence | exact Heq].
  - congruence.
Qed.

End ScoreFrame.

(** C5. In an iteration whose active part runs (the game is started and
    not paused once the input is processed), the current score grows by
    exactly 1 when [detect_collision] answers false and is unchanged when
    it answers true. *)
Theorem score_per_active_tick (get_ticks raw : nat -> Z) (username : string)
    (inp : Game.Input) (g g1 : Game.t) (db : UserDatabase.t) :
  Game.before_active get_ticks raw inp g = Continue g1 ->
  Game.game_started g1 = true ->
  Game.paused g1 = false ->
  exists g' db',
    Game.tick get_ticks raw username inp (g, db) = Continue (g', db')
    /\ Score.current_score (Game.score_system g')
       = if Game.detect_collision (at_check get_ticks raw g1)
         then Score.current_score (Game.score_system g)
         else Score.current_score (Game.score_system g) + 1.
Proof.
  intros Hb Hstarted Hpaused.
  pose proof (score_before_active get_ticks raw inp g g1 Hb Hstarted) as Hscore.
  unfold Game.tick. cbn [fst snd]. rewrite Hb, Hstarted, Hpaused. cbn [andb negb].
  unfold Game.active. cbn [fst snd]. eexists _, _. split; [reflexivity |].
  rewrite score_apply_gravity, score_check_collisions.
  rewrite score_move_pipes, score_generate_pipes, Hscore.
  unfold at_check. destruct (Game.detect_collision _); reflexivity.
Qed.

Lemma score_per_active_tick_witness :
  (exists g' db',
     Game.tick clock_0 draws_0 "alice" press_space (game_0, db_alice) = Continue (g', db')
     /\ Score.current_score (Game.score_system g') = 0 + 1)
  /\ (exists g' db',
        Game.tick clock_0 draws_0 "alice" no_input (game_fallen, db_alice) = Continue (g', db')
        /\ Score.current_score (Game.score_system g') = 47).
Proof.
  split.
  - apply (score_per_active_tick clock_0 draws_0 "alice" press_space
             game_0 (entering press_space game_0) db_alice);
      vm_compute; reflexivity.
  - apply (score_per_active_tick clock_0 draws_0 "alice" no_input
             game_fallen (entering no_input game_fallen) db_alice);
      vm_compute; reflexivity.
Defined.

(** ** Level transition and hand-off *)

Lemma set_center_center (r : Rect.t) : Rect.set_center (Rect.center r) r = r.
Proof. destruct r as [x y w h]. unfold Rect.set_center, Rect.center. cbn. f_equal; lia. Qed.

Lemma center_set_center (c : Z * Z) (r : Rect.t) : Rect.center (Rect.set_center c r) = c.
Proof. destruct c as [cx cy]. unfold Rect.set_center, Rect.center. cbn. f_equal; lia. Qed.

(** The hand-off block: the new bird takes the position, the lives and
    the rectangle object of the old one and keeps its own image and
    speed; the shared rectangle is not moved. *)
Lemma change_bird_spec (new : BirdId) (g : Game.t) :
  let g' := Game.change_bird new g in
  Game.bird g' = new
  /\ CollisionDetector.bird (Game.collision_detector g') = new
  /\ Game.the_bird g'
     = Bird.mk (Bird.x (Game.the_bird g)) (Bird.y (Game.the_bird g))
               (Bird.image (Game.birds g new)) (Bird.rect (Game.the_bird g))
               (Bird.speed (Game.birds g new)) (Bird.lives (Game.the_bird g))
  /\ Game.bird_rect g' = Game.bird_rect g.
Proof.
  cbn zeta. split; [reflexivity |]. split; [reflexivity |].
  assert (Game.the_bird (Game.change_bird new g)
          = Bird.mk (Bird.x (Game.the_bird g)) (Bird.y (Game.the_bird g))
               (Bird.image (Game.birds g new)) (Bird.rect (Game.the_bird g))
               (Bird.speed (Game.birds g new)) (Bird.lives (Game.the_bird g))) as Hbird.
  { unfold Game.change_bird, Game.the_bird, Game.update_bird. cbn.
    now rewrite fn_lookup_insert. }
  split; [exact Hbird |].
  unfold Game.bird_rect. rewrite Hbird. cbn [Bird.rect].
  unfold Game.change_bird. cbn.
  rewrite fn_lookup_insert. apply set_center_center.
Qed.

(** [check_level_transition] is the hand-off to the fired target, after
    the flags, the background and the ground have been set; it does
    nothing when no branch is taken. *)
Lemma check_level_transition_fired (g : Game.t) :
  match fired_transition g with
  | Some new =>
      exists g0, Game.check_level_transition g = Game.change_bird new g0
                 /\ Game.bird g0 = Game.bird g
                 /\ Game.birds g0 = Game.birds g
                 /\ Game.rects g0 = Game.rects g
  | None => Game.check_level_transition g = g
  end.
Proof.
  unfold fired_transition, Game.check_level_transition.
  destruct (_ && _); [eexists; split; [reflexivity | repeat split] |].
  destruct (_ && _); [eexists; split; [reflexivity | repeat split] |].
  destruct (_ && _); [eexists; split; [reflexivity | repeat split] |].
  reflexivity.
Qed.

(** C2, counterexample. At score 300 the blue bird moves at speed 9 when
    the transition hands over to the green bird, whose speed is still 0. *)
Lemma hand_off_keeps_velocity_fails : ~ hand_off_keeps_velocity.
Proof.
  intros Hclaim.
  destruct (Hclaim game_300 B2) as (_ & _ & _ & Hspeed & _).
  - vm_compute. reflexivity.
  - vm_compute in Hspeed. discriminate Hspeed.
Qed.

Example game_300_facts :
  Score.current_score (Game.score_system game_300) = 300
  /\ fired_transition game_300 = Some B2
  /\ Bird.speed (Game.the_bird game_300) = inject_Z 9
  /\ Bird.speed (Game.the_bird (Game.check_level_transition game_300)) = 0%Q.
Proof. vm_compute. repeat split; reflexivity. Qed.

(** C2, amended. When a transition fires, the incoming bird ends with
    the position, the bounding box (the very rectangle object, unmoved)
    and the lives of the outgoing bird, and the detector refers to it in
    the same step; its vertical velocity and its image are those the
    incoming instance already had. *)
Theorem level_transition_hand_off (g : Game.t) (new : BirdId) :
  fired_transition g = Some new ->
  let g' := Game.check_level_transition g in
  Game.bird g' = new
  /\ CollisionDetector.bird (Game.collision_detector g') = new
  /\ Bird.x (Game.the_bird g') = Bird.x (Game.the_bird g)
  /\ Bird.y (Game.the_bird g') = Bird.y (Game.the_bird g)
  /\ Bird.rect (Game.the_bird g') = Bird.rect (Game.the_bird g)
  /\ Game.bird_rect g' = Game.bird_rect g
  /\ Bird.lives (Game.the_bird g') = Bird.lives (Game.the_bird g)
  /\ Bird.speed (Game.the_bird g') = Bird.speed (Game.birds g new)
  /\ Bird.image (Game.the_bird g') = Bird.image (Game.birds g new).
Proof.
  intros Hfired g'. subst g'.
  pose proof (check_level_transition_fired g) as Hstep. rewrite Hfired in Hstep.
  destruct Hstep as (g0 & -> & Hb & Hbs & Hrs).
  destruct (change_bird_spec new g0) as (H1 & H2 & H3 & H4).
  assert (Game.the_bird g0 = Game.the_bird g) as Hthe
    by (unfold Game.the_bird; now rewrite Hb, Hbs).
  assert (Game.bird_rect g0 = Game.bird_rect g) as Hrect
    by (unfold Game.bird_rect; now rewrite Hthe, Hrs).
  rewrite H3, H4, Hthe, Hrect, Hbs. cbn. repeat split; assumption.
Qed.

Lemma level_transition_hand_off_witness :
  let g' := Game.check_level_transition game_300 in
  Game.bird g' = B2
  /\ CollisionDetector.bird (Game.collision_detector g') = B2
  /\ Bird.x (Game.the_bird g') = Bird.x (Game.the_bird game_300)
  /\ Bird.y (Game.the_bird g') = Bird.y (Game.the_bird game_300)
  /\ Bird.rect (Game.the_bird g') = Bird.rect (Game.the_bird game_300)
  /\ Game.bird_rect g' = Game.bird_rect game_300
  /\ Bird.lives (Game.the_bird g') = Bird.lives (Game.the_bird game_300)
  /\ Bird.speed (Game.the_bird g') = Bird.speed (Game.birds game_300 B2)
  /\ Bird.image (Game.the_bird g') = Bird.image (Game.birds game_300 B2).
Proof.
  apply (level_transition_hand_off game_300 B2).
  vm_compute. reflexivity.
Defined.

(** ** The rectangle after a soft reset *)

Lemma Qred_inject_Z_plus_0 (n : Z) : Qred (inject_Z n + 0) = inject_Z n.
Proof.
  transitivity (Qred (inject_Z n)).
  - apply Qred_complete. apply Qplus_0_r.
  - unfold inject_Z, Qred. cbn [Qnum Qden].
    pose proof (Z.ggcd_gcd n 1) as Hg. pose proof (Z.ggcd_correct_divisors n 1) as Hd.
    destruct (Z.ggcd n 1) as [d [a b]]. cbn in Hg, Hd |- *.
    rewrite Z.gcd_1_r in Hg. subst d. destruct Hd as [Ha Hb].
    replace a with n by lia. replace b with 1 by lia. reflexivity.
Qed.

Lemma py_int_inject_Z (n : Z) : py_int (inject_Z n) = n.
Proof. unfold py_int, inject_Z. cbn. apply Z.quot_1_r. Qed.

Section RectFrame.

Variable get_ticks : nat -> Z.
Variable raw : nat -> Z.

(** Spawning, moving and sharing the pipes touch neither the birds nor
    their rectangles nor the detector's bird. *)
Lemma at_check_frame (g : Game.t) :
  Game.bird (at_check get_ticks raw g) = Game.bird g
  /\ Game.birds (at_check get_ticks raw g) = Game.birds g
  /\ Game.rects (at_check get_ticks raw g) = Game.rects g
  /\ CollisionDetector.bird (Game.collision_detector (at_check get_ticks raw g))
     = CollisionDetector.bird (Game.collision_detector g).
Proof.
  unfold at_check, Game.share_pipes, Game.move_pipes, Game.rebind_pipes, Game.generate_pipes.
  cbn.
  destruct (_ >? _); [| repeat split].
  destruct (_ >? _); [repeat split |].
  destruct (_ >? _); repeat split.
Qed.

Lemma at_check_rects (g : Game.t) :
  Game.the_bird (at_check get_ticks raw g) = Game.the_bird g
  /\ Game.bird_rect (at_check get_ticks raw g) = Game.bird_rect g
  /\ Game.detector_rect (at_check get_ticks raw g) = Game.detector_rect g.
Proof.
  destruct (at_check_frame g) as (Hb & Hbs & Hrs & Hcd).
  unfold Game.detector_rect, Game.detector_bird, Game.bird_rect, Game.the_bird.
  now rewrite Hb, Hbs, Hrs, Hcd.
Qed.

Lemma centred_at_check (g : Game.t) : centred g -> centred (at_check get_ticks raw g).
Proof.
  destruct (at_check_frame g) as (Hb & _ & _ & Hcd).
  destruct (at_check_rects g) as (_ & Hr & _).
  unfold centred. rewrite Hb, Hcd, Hr. tauto.
Qed.

(** [reset_bird_and_pipes] writes [x], [y] and [speed] and leaves every
    rectangle, and the rectangle every bird refers to, as it was. *)
Lemma reset_bird_and_pipes_rect (g : Game.t) :
  Game.rects (Game.reset_bird_and_pipes g) = Game.rects g
  /\ (forall id, Bird.rect (Game.birds (Game.reset_bird_and_pipes g) id)
                 = Bird.rect (Game.birds g id))
  /\ Game.bird_rect (Game.reset_bird_and_pipes g) = Game.bird_rect g
  /\ Game.detector_rect (Game.reset_bird_and_pipes g) = Game.detector_rect g.
Proof.
  assert (forall id, Bird.rect (Game.birds (Game.reset_bird_and_pipes g) id)
                     = Bird.rect (Game.birds g id)) as Hids.
  { intros id. unfold Game.reset_bird_and_pipes.
    change (Game.birds (Game.set_game_started false (Game.set_pipes [] ?h)))
      with (Game.birds h).
    rewrite !birds_update_bird_rect by reflexivity. reflexivity. }
  split; [reflexivity |]. split; [exact Hids |].
  unfold Game.bird_rect, Game.detector_rect, Game.detector_bird, Game.the_bird.
  rewrite !Hids. split; reflexivity.
Qed.

(** A collision that leaves a life is the decrement followed by the
    soft reset. *)
Lemma check_collisions_soft_reset (g : Game.t) :
  Game.detect_collision (Game.share_pipes g) = true ->
  Bird.lives (Game.the_bird g) - 1 <> 0 ->
  Game.check_collisions g
  = Game.reset_bird_and_pipes (Game.update_bird Bird.reduce_life (Game.share_pipes g)).
Proof.
  intros Hhit Hlives. unfold Game.check_collisions. rewrite Hhit.
  rewrite the_bird_update_bird.
  change (Bird.lives (Bird.reduce_life (Game.the_bird (Game.share_pipes g))))
    with (Bird.lives (Game.the_bird g) - 1).
  destruct (Z.eqb_spec (Bird.lives (Game.the_bird g) - 1) 0); [contradiction | reflexivity].
Qed.

(** The [apply_gravity] that follows a soft reset moves the rectangle
    to the centre of the screen: the bird is there, at speed 0. *)
Lemma apply_gravity_after_reset (g : Game.t) :
  Rect.center (Game.bird_rect (Game.apply_gravity (Game.reset_bird_and_pipes g)))
  = (Game.screen_width / 2, Game.screen_height / 2)
  /\ Bird.speed (Game.the_bird (Game.apply_gravity (Game.reset_bird_and_pipes g))) = 9 # 10
  /\ Bird.y (Game.the_bird (Game.apply_gravity (Game.reset_bird_and_pipes g)))
     = inject_Z (Game.screen_height / 2).
Proof.
  assert (Game.the_bird (Game.apply_gravity (Game.reset_bird_and_pipes g))
          = fst (Bird.apply_gravity (Game.the_bird (Game.reset_bird_and_pipes g))
                   (Game.bird_rect (Game.reset_bird_and_pipes g)))) as Hbird.
  { unfold Game.apply_gravity, Game.the_bird at 1. cbn. now rewrite fn_lookup_insert. }
  assert (Game.bird_rect (Game.apply_gravity (Game.reset_bird_and_pipes g))
          = snd (Bird.apply_gravity (Game.the_bird (Game.reset_bird_and_pipes g))
                   (Game.bird_rect (Game.reset_bird_and_pipes g)))) as Hrect.
  { unfold Game.bird_rect at 1. rewrite Hbird.
    unfold Game.apply_gravity. cbn. now rewrite fn_lookup_insert. }
  rewrite Hrect, Hbird, the_bird_reset_bird_and_pipes.
  unfold Bird.apply_gravity. cbn [fst snd Bird.x Bird.y Bird.speed].
  rewrite Qred_inject_Z_plus_0, py_int_inject_Z, center_set_center.
  repeat split.
Qed.

Lemma centred_after_soft_reset (g : Game.t) :
  CollisionDetector.bird (Game.collision_detector g) = Game.bird g ->
  centred (Game.apply_gravity (Game.reset_bird_and_pipes g)).
Proof.
  intros Hcd. split; [exact Hcd | apply apply_gravity_after_reset].
Qed.

(** *** Iterations without collision check keep the rectangle centred *)

Lemma centred_check_level_transition (g : Game.t) :
  centred g -> centred (Game.check_level_transition g).
Proof.
  intros [Hcd Hc]. pose proof (check_level_transition_fired g) as Hstep.
  destruct (fired_transition g) as [new |]; [| now rewrite Hstep].
  destruct Hstep as (g0 & -> & Hb & Hbs & Hrs).
  destruct (change_bird_spec new g0) as (H1 & H2 & _ & H4).
  unfold centred. rewrite H1, H2, H4.
  split; [reflexivity |].
  unfold Game.bird_rect, Game.the_bird in *. now rewrite Hb, Hbs, Hrs.
Qed.

Lemma centred_handle_event (g : Game.t) (event : Event) :
  centred g -> centred (Game.handle_event g event).
Proof.
  intros Hc. unfold Game.handle_event.
  destruct event as [| key |]; [exact Hc | | exact Hc].
  assert (forall h, centred h -> centred (Game.update_bird Bird.flap h)) as Hflap.
  { intros h [Hcd Hr]. split; [exact Hcd |].
    unfold Game.bird_rect. rewrite the_bird_update_bird. exact Hr. }
  destruct key; try exact Hc.
  destruct (Game.game_started g); apply Hflap; exact Hc.
Qed.

Lemma centred_process_input (events : list Event) (g : Game.t) :
  centred g -> centred (Game.process_input events g).
Proof.
  unfold Game.process_input. revert g.
  induction events as [| e events IH]; intros g Hc; cbn; [exact Hc |].
  apply IH, centred_handle_event, Hc.
Qed.

Lemma centred_start_new_game (g : Game.t) : centred (Game.start_new_game get_ticks raw g).
Proof. split; reflexivity. Qed.

Lemma centred_pause_menu (events : list Event) (o : Outcome Game.t) :
  match o with Continue g => centred g | Exit => True end ->
  match foldl (Game.pause_event get_ticks raw) o events with
  | Continue g => centred g
  | Exit => True
  end.
Proof.
  revert o. induction events as [| e events IH]; intros o Ho; cbn; [exact Ho |].
  apply IH. destruct o as [g |]; [| exact I].
  destruct e as [| [] |]; cbn; try exact Ho; try exact I.
  apply centred_start_new_game.
Qed.

Lemma centred_before_active (inp : Game.Input) (g g1 : Game.t) :
  centred g ->
  Game.before_active get_ticks raw inp g = Continue g1 ->
  centred g1.
Proof.
  intros Hc. unfold Game.before_active.
  set (g0 := Game.clock_read
               (Game.process_input (Game.events inp) (Game.check_level_transition g))).
  assert (centred g0) as Hg0
    by (apply (centred_process_input (Game.events inp)), centred_check_level_transition, Hc).
  destruct (Game.paused g0).
  - intros Hb. pose proof (centred_pause_menu (Game.menu_events inp) (Continue g0) Hg0) as Hm.
    now rewrite Hb in Hm.
  - intros [= <-]. exact Hg0.
Qed.

Lemma centred_idle (g g' : Game.t) :
  idle get_ticks raw g g' -> centred g -> centred g'.
Proof.
  induction 1 as [g | inp g g1 g' Hb _ _ IH]; intros Hc; [exact Hc |].
  apply IH. eapply centred_before_active; eauto.
Qed.

End RectFrame.

(** [end_of_active] is the game component of [Game.active]. *)
Lemma active_end_of_active (get_ticks raw : nat -> Z) (username : string)
    (g : Game.t) (db : UserDatabase.t) :
  fst (Game.active get_ticks raw username (g, db)) = end_of_active get_ticks raw g.
Proof. reflexivity. Qed.

Lemma centred_detector_rect (g : Game.t) :
  centred g ->
  Rect.center (Game.detector_rect g) = (Game.screen_width / 2, Game.screen_height / 2).
Proof.
  intros [Hcd Hc]. unfold Game.detector_rect, Game.detector_bird.
  rewrite Hcd. exact Hc.
Qed.

(** C10, counterexample. The bird caught below the screen is reset; in
    the next iteration, started with SPACE, the collision check tests the
    rectangle at (940, 570), not the one left at (940, 1119). *)
Lemma first_check_after_reset_is_stale_fails : ~ first_check_after_reset_is_stale.
Proof.
  intros Hclaim.
  specialize (Hclaim clock_0 draws_0 press_space game_caught game_reset game_restarted).
  assert (Game.detector_rect (at_check clock_0 draws_0 game_restarted)
          = Game.detector_rect (at_check clock_0 draws_0 game_caught)) as Hsame.
  { apply Hclaim.
    - vm_compute. reflexivity.
    - vm_compute. reflexivity.
    - vm_compute. discriminate.
    - apply idle_refl.
    - vm_compute. reflexivity.
    - vm_compute. reflexivity.
    - vm_compute. reflexivity. }
  vm_compute in Hsame. discriminate Hsame.
Qed.

Example rects_around_the_reset :
  Game.detector_rect (at_check clock_0 draws_0 game_caught) = Rect.mk 940 1119 60 60
  /\ Game.detector_rect (Game.check_collisions
       (Game.move_pipes (Game.generate_pipes clock_0 draws_0 game_caught)))
     = Rect.mk 940 1119 60 60
  /\ Game.detector_rect game_reset = Rect.mk 940 570 60 60
  /\ Game.detector_rect (at_check clock_0 draws_0 game_restarted) = Rect.mk 940 570 60 60.
Proof. vm_compute. repeat split; reflexivity. Qed.

(** C10, amended. A collision check that resets the bird writes [x],
    [y] and [speed] and leaves the rectangle where it was, so the box
    the detector would consult is stale until [apply_gravity] is called;
    that call follows [check_collisions] in the same iteration and
    centres the rectangle on the reset position, and it is still centred
    there when the next collision check runs, whatever iterations without
    a check come in between. *)
Theorem rect_recentred_before_next_check (get_ticks raw : nat -> Z)
    (inp : Game.Input) (g1 g2 g3 : Game.t) :
  CollisionDetector.bird (Game.collision_detector g1) = Game.bird g1 ->
  Game.detect_collision (at_check get_ticks raw g1) = true ->
  Bird.lives (Game.the_bird g1) - 1 <> 0 ->
  idle get_ticks raw (end_of_active get_ticks raw g1) g2 ->
  Game.before_active get_ticks raw inp g2 = Continue g3 ->
  let checked := at_check get_ticks raw g1 in
  let reset := Game.check_collisions
                 (Game.move_pipes (Game.generate_pipes get_ticks raw g1)) in
  Bird.x (Game.the_bird reset) = Game.screen_width / 2
  /\ Bird.y (Game.the_bird reset) = inject_Z (Game.screen_height / 2)
  /\ Bird.speed (Game.the_bird reset) = 0%Q
  /\ Game.detector_rect reset = Game.detector_rect checked
  /\ Rect.center (Game.detector_rect (end_of_active get_ticks raw g1))
     = (Game.screen_width / 2, Game.screen_height / 2)
  /\ Rect.center (Game.detector_rect (at_check get_ticks raw g3))
     = (Game.screen_width / 2, Game.screen_height / 2).
Proof.
  intros Hcd Hhit Hlives Hidle Hnext checked reset.
  destruct (at_check_frame get_ticks raw g1) as (Hb & Hbs & _ & Hcd1).
  destruct (at_check_rects get_ticks raw g1) as (Hthe & _ & _).
  set (moved := Game.move_pipes (Game.generate_pipes get_ticks raw g1)) in *.
  assert (reset = Game.reset_bird_and_pipes (Game.update_bird Bird.reduce_life checked))
    as Hreset.
  { subst reset. apply check_collisions_soft_reset; [exact Hhit |].
    change (Game.the_bird moved) with (Game.the_bird checked).
    subst checked. now rewrite Hthe. }
  assert (centred (end_of_active get_ticks raw g1)) as Hcentred.
  { unfold end_of_active. fold moved. fold reset. rewrite Hreset.
    apply centred_after_soft_reset.
    change (CollisionDetector.bird (Game.collision_detector checked) = Game.bird checked).
    subst checked. now rewrite Hcd1, Hb. }
  rewrite Hreset at 1 2 3. rewrite the_bird_reset_bird_and_pipes. cbn [Bird.x Bird.y Bird.speed].
  split; [reflexivity |]. split; [reflexivity |]. split; [reflexivity |].
  split.
  - rewrite Hreset.
    destruct (reset_bird_and_pipes_rect (Game.update_bird Bird.reduce_life checked))
      as (_ & _ & _ & ->).
    unfold Game.detector_rect, Game.detector_bird.
    change (Game.collision_detector (Game.update_bird Bird.reduce_life checked))
      with (Game.collision_detector checked).
    change (Game.rects (Game.update_bird Bird.reduce_life checked))
      with (Game.rects checked).
    now rewrite birds_update_bird_rect.
  - split.
    + apply centred_detector_rect, Hcentred.
    + apply centred_detector_rect, centred_at_check.
      eapply centred_before_active; [| exact Hnext].
      eapply centred_idle; eauto.
Qed.

Lemma rect_recentred_before_next_check_witness :
  let checked := at_check clock_0 draws_0 game_caught in
  let reset := Game.check_collisions
                 (Game.move_pipes (Game.generate_pipes clock_0 draws_0 game_caught)) in
  Bird.x (Game.the_bird reset) = Game.screen_width / 2
  /\ Bird.y (Game.the_bird reset) = inject_Z (Game.screen_height / 2)
  /\ Bird.speed (Game.the_bird reset) = 0%Q
  /\ Game.detector_rect reset = Game.detector_rect checked
  /\ Rect.center (Game.detector_rect game_reset)
     = (Game.screen_width / 2, Game.screen_height / 2)
  /\ Rect.center (Game.detector_rect
       (at_check clock_0 draws_0 (entering press_space (entering no_input game_reset))))
     = (Game.screen_width / 2, Game.screen_height / 2).
Proof.
  apply (rect_recentred_before_next_check clock_0 draws_0 press_space
           game_caught (entering no_input game_reset)
           (entering press_space (entering no_input game_reset))).
  - vm_compute. reflexivity.
  - vm_compute. reflexivity.
  - vm_compute. discriminate.
  - apply (idle_step clock_0 draws_0 no_input game_reset (entering no_input game_reset)).
    + vm_compute. reflexivity.
    + vm_compute. reflexivity.
    + apply idle_refl.
  - vm_compute. reflexivity.
Defined.

(** * Further properties *)

(** ** Account store: loading, accounts, stored scores *)

Lemma load_user_to_dict (u : User) : load_user (json_of_dict (to_dict u)) = u.
Proof. destruct u as [n p [c h]]. reflexivity. Qed.

(** X1. What [save_users] writes, [load_users] reads back: reopening
    the store after a save gives the same accounts with the same
    passwords and scores.  Without file the store is empty, and an entry
    without [score] or [high_score] key loads with 0. *)
Theorem save_then_load (db : UserDatabase.t) :
  reopen (UserDatabase.save_users db) = UserDatabase.save_users db
  /\ load_users None = ∅
  /\ (forall (data : gmap string UserJson) (name n p : string),
        data !! name = Some (mkUserJson n p None None) ->
        UserDatabase.get_high_score name (UserDatabase.mk (load_users (Some data)) None) = 0
        /\ load_users (Some data) !! name = Some (mkUser n p (Score.mk 0 0))).
Proof.
  split; [| split; [reflexivity |]].
  - unfold reopen, UserDatabase.save_users. cbn. f_equal.
    rewrite <- !map_fmap_compose. apply map_eq. intros name.
    rewrite lookup_fmap. destruct (UserDatabase.users db !! name) as [u |]; [| reflexivity].
    cbn. now rewrite load_user_to_dict.
  - intros data name n p Hdata.
    assert (load_users (Some data) !! name = Some (mkUser n p (Score.mk 0 0))) as Hl
      by (cbn; now rewrite lookup_fmap, Hdata).
    split; [| exact Hl].
    unfold UserDatabase.get_high_score. cbn [UserDatabase.users]. now rewrite Hl.
Qed.

Lemma save_then_load_witness :
  UserDatabase.get_high_score "bob"
    (UserDatabase.mk (load_users (Some {[ "bob"%string := mkUserJson "bob" "pw" None None ]})) None)
  = 0
  /\ load_users (Some {[ "bob"%string := mkUserJson "bob" "pw" None None ]}) !! "bob"%string
     = Some (mkUser "bob" "pw" (Score.mk 0 0)).
Proof.
  apply (proj2 (proj2 (save_then_load db_empty))). reflexivity.
Defined.

Section Accounts.

Variable db : UserDatabase.t.
Variable name pw : string.

Lemma create_account_taken (u : User) :
  UserDatabase.users db !! name = Some u ->
  UserDatabase.create_account name pw db = (db, false).
Proof. unfold UserDatabase.create_account. now intros ->. Qed.

Lemma create_account_free :
  UserDatabase.users db !! name = None ->
  UserDatabase.create_account name pw db
  = (UserDatabase.save_users
       (UserDatabase.mk (<[name := User_init name pw]> (UserDatabase.users db))
                        (UserDatabase.file db)), true).
Proof. unfold UserDatabase.create_account. now intros ->. Qed.

(** [update_high_score] never lowers a stored high score, whoever it is
    for, and changes no password. *)
Lemma update_high_score_lookup (new_score : Z) (other : string) :
  match UserDatabase.users db !! other,
        UserDatabase.users (UserDatabase.update_high_score name new_score db) !! other with
  | Some u, Some u' =>
      username u' = username u /\ password u' = password u
      /\ Score.current_score (score u') = Score.current_score (score u)
      /\ Score.high_score (score u) <= Score.high_score (score u')
      /\ (other <> name -> u' = u)
  | None, None => True
  | _, _ => False
  end.
Proof.
  unfold UserDatabase.update_high_score.
  destruct (UserDatabase.users db !! name) as [user |] eqn:Hname.
  - destruct (Z.gtb_spec new_score (Score.high_score (score user))) as [Hgt | Hle].
    + cbn. destruct (decide (name = other)) as [<- | Hne].
      * rewrite Hname, lookup_insert_eq. cbn. repeat split; try lia. congruence.
      * rewrite lookup_insert_ne by exact Hne.
        destruct (UserDatabase.users db !! other); [| exact I].
        repeat split; lia.
    + destruct (UserDatabase.users db !! other); [| exact I]. repeat split; lia.
  - destruct (UserDatabase.users db !! other); [| exact I]. repeat split; lia.
Qed.

Lemma get_high_score_update_le (new_score : Z) (other : string) :
  UserDatabase.get_high_score other db
  <= UserDatabase.get_high_score other (UserDatabase.update_high_score name new_score db).
Proof.
  pose proof (update_high_score_lookup new_score other) as H.
  unfold UserDatabase.get_high_score.
  destruct (UserDatabase.users db !! other),
           (UserDatabase.users (UserDatabase.update_high_score name new_score db) !! other);
    try contradiction; [tauto | lia].
Qed.

Lemma login_update_high_score (new_score : Z) (other pw' : string) :
  UserDatabase.login other pw' (UserDatabase.update_high_score name new_score db)
  = UserDatabase.login other pw' db.
Proof.
  pose proof (update_high_score_lookup new_score other) as H.
  unfold UserDatabase.login.
  destruct (UserDatabase.users db !! other),
           (UserDatabase.users (UserDatabase.update_high_score name new_score db) !! other);
    try contradiction; [| reflexivity].
  destruct H as (_ & -> & _). reflexivity.
Qed.

Lemma saved_save_users : saved (UserDatabase.save_users db).
Proof. reflexivity. Qed.

End Accounts.

(** X2. [create_account] refuses a name that is taken: it answers
    [False] and leaves the store, in memory and on disk, untouched (the
    password of the existing account is not replaced).  For a free name
    it answers [True]; the new account then logs in with exactly the
    password given, has high score 0, the file holds all accounts, and
    every other account logs in as before. *)
Theorem create_account_spec (db : UserDatabase.t) (name pw : string) :
  (forall u, UserDatabase.users db !! name = Some u ->
     UserDatabase.create_account name pw db = (db, false))
  /\ (UserDatabase.users db !! name = None ->
      let db' := fst (UserDatabase.create_account name pw db) in
      snd (UserDatabase.create_account name pw db) = true
      /\ (forall pw', UserDatabase.login name pw' db' = true <-> pw' = pw)
      /\ UserDatabase.get_high_score name db' = 0
      /\ saved db'
      /\ (forall other pw', other <> name ->
            UserDatabase.login other pw' db' = UserDatabase.login other pw' db
            /\ UserDatabase.get_high_score other db' = UserDatabase.get_high_score other db)).
Proof.
  split; [intros u; apply create_account_taken |].
  intros Hfree. rewrite (create_account_free db name pw Hfree). cbn [fst snd].
  split; [reflexivity |]. split; [| split; [| split; [reflexivity |]]].
  - intros pw'. unfold UserDatabase.login. cbn. rewrite lookup_insert_eq. cbn.
    rewrite bool_decide_eq_true. split; congruence.
  - unfold UserDatabase.get_high_score. cbn. now rewrite lookup_insert_eq.
  - intros other pw' Hne. unfold UserDatabase.login, UserDatabase.get_high_score. cbn.
    rewrite lookup_insert_ne by congruence. split; reflexivity.
Qed.

Lemma create_account_spec_witness :
  UserDatabase.create_account "alice" "other" db_signed_up = (db_signed_up, false)
  /\ snd (UserDatabase.create_account "alice" "secret" db_empty) = true
  /\ UserDatabase.login "alice" "secret" db_signed_up = true
  /\ UserDatabase.get_high_score "alice" db_signed_up = 0.
Proof.
  split.
  - apply (proj1 (create_account_spec db_signed_up "alice" "other")
             (User_init "alice" "secret")).
    reflexivity.
  - destruct (proj2 (create_account_spec db_empty "alice" "secret")) as (H1 & H2 & H3 & _).
    + reflexivity.
    + split; [exact H1 |]. split; [| exact H3].
      apply (proj2 (H2 "secret"%string)). reflexivity.
Defined.



(** X4. Once the file holds the accounts in memory, it goes on doing
    so: [create_account] and [update_high_score] either change nothing
    or rewrite the file from the new dictionary. *)
Theorem saved_preserved (db : UserDatabase.t) (name pw : string) (new_score : Z) :
  saved db ->
  saved (fst (UserDatabase.create_account name pw db))
  /\ saved (UserDatabase.update_high_score name new_score db).
Proof.
  intros Hsaved. split.
  - unfold UserDatabase.create_account.
    destruct (UserDatabase.users db !! name); [exact Hsaved | reflexivity].
  - unfold UserDatabase.update_high_score.
    destruct (UserDatabase.users db !! name) as [user |]; [| exact Hsaved].
    destruct (new_score >? Score.high_score (score user)); [reflexivity | exact Hsaved].
Qed.

Lemma saved_preserved_witness :
  saved (fst (UserDatabase.create_account "alice" "pw" db_signed_up))
  /\ saved (UserDatabase.update_high_score "alice" 150 db_signed_up).
Proof.
  apply (saved_preserved db_signed_up "alice" "pw" 150). reflexivity.
Defined.

(** ** Pipes: moving, pruning, spawning *)

Lemma pipe_move_iter (p : Pipe.t) (n : nat) :
  let q := Nat.iter n Pipe.move p in
  Pipe.x q = Pipe.x p - PIPE_SPEED * Z.of_nat n
  /\ Pipe.width q = Pipe.width p
  /\ Pipe.height q = Pipe.height p
  /\ (0 < n -> Rect.x (Pipe.top q) = Pipe.x q /\ Rect.x (Pipe.bottom q) = Pipe.x q)%nat
  /\ Rect.y (Pipe.top q) = Rect.y (Pipe.top p)
  /\ Rect.w (Pipe.top q) = Rect.w (Pipe.top p)
  /\ Rect.h (Pipe.top q) = Rect.h (Pipe.top p)
  /\ Rect.y (Pipe.bottom q) = Rect.y (Pipe.bottom p)
  /\ Rect.w (Pipe.bottom q) = Rect.w (Pipe.bottom p)
  /\ Rect.h (Pipe.bottom q) = Rect.h (Pipe.bottom p).
Proof.
  induction n as [| n IH]; cbn zeta.
  - cbn. repeat split; try lia.
  - cbn zeta in IH. destruct IH as (Hx & Hw & Hh & _ & H1 & H2 & H3 & H4 & H5 & H6).
    change (Nat.iter (S n) Pipe.move p) with (Pipe.move (Nat.iter n Pipe.move p)).
    set (q := Nat.iter n Pipe.move p) in *.
    unfold Pipe.move, Rect.set_x. cbn [Pipe.x Pipe.width Pipe.height Pipe.top Pipe.bottom
                                        Rect.x Rect.y Rect.w Rect.h].
    rewrite Hx, Hw, Hh, H1, H2, H3, H4, H5, H6. repeat split; lia.
Qed.

(** X5. A pipe enters at the right edge, [x = 1940], and every [move]
    shifts the pipe and both its rectangles 7 pixels to the left without
    changing their vertical extent; it is off the screen from its 292nd
    move on, and not before. *)
Theorem pipe_scrolls_left (raw : Z) (n : nat) :
  let p0 := Pipe.generate_pipes (Pipe.init raw) in
  let p := Nat.iter n Pipe.move p0 in
  Pipe.x p = 1940 - 7 * Z.of_nat n
  /\ Rect.x (Pipe.top p) = Pipe.x p
  /\ Rect.x (Pipe.bottom p) = Pipe.x p
  /\ Rect.y (Pipe.top p) = 0
  /\ Rect.h (Pipe.top p) = Pipe.height p0
  /\ Rect.y (Pipe.bottom p) = Pipe.height p0 + PIPE_GAP
  /\ Rect.h (Pipe.bottom p) = Rect.h (Pipe.bottom p0)
  /\ (Pipe.is_off_screen p = true <-> (292 <= n)%nat).
Proof.
  intros p0 p.
  destruct (pipe_move_iter p0 n) as (Hx & Hw & Hh & Hrx & H1 & H2 & H3 & H4 & H5 & H6).
  fold p in Hx, Hw, Hh, Hrx, H1, H2, H3, H4, H5, H6.
  assert (Pipe.x p = 1940 - 7 * Z.of_nat n) as Hxp by (rewrite Hx; reflexivity).
  split; [exact Hxp |].
  assert (Rect.x (Pipe.top p) = Pipe.x p /\ Rect.x (Pipe.bottom p) = Pipe.x p) as [Ht Hb].
  { destruct n as [| n]; [split; reflexivity | apply Hrx; lia]. }
  split; [exact Ht |]. split; [exact Hb |].
  split; [rewrite H1; reflexivity |].
  split; [rewrite H3; reflexivity |].
  split; [rewrite H4; reflexivity |].
  split; [exact H6 |].
  unfold Pipe.is_off_screen. rewrite Hxp, Hw. change (Pipe.width p0) with 100.
  rewrite Z.ltb_lt. lia.
Qed.

Lemma pipe_scrolls_left_witness :
  Pipe.is_off_screen (Nat.iter 292 Pipe.move (Pipe.generate_pipes (Pipe.init 0))) = true
  /\ Pipe.x (Nat.iter 291 Pipe.move (Pipe.generate_pipes (Pipe.init 0))) = 1940 - 7 * 291.
Proof.
  split.
  - apply (proj2 (proj2 (proj2 (proj2 (proj2 (proj2 (proj2 (pipe_scrolls_left 0 292)))))))).
    lia.
  - apply (proj1 (pipe_scrolls_left 0 291)).
Defined.

Section PipeStore.

Variable objs : list Pipe.t.

Lemma move_all_cons (i : nat) (ids : list nat) :
  Game.move_all (i :: ids) objs = Game.move_all ids (alter Pipe.move i objs).
Proof. reflexivity. Qed.

Lemma resolve_filter_on_screen (ids : list nat) :
  Game.resolve objs (List.filter (Game.on_screen objs) ids)
  = List.filter stays (Game.resolve objs ids).
Proof.
  unfold Game.resolve. induction ids as [| i ids IH]; [reflexivity |].
  cbn. unfold Game.on_screen at 1.
  destruct (objs !! i) as [p |] eqn:Hi; cbn.
  - fold (stays p). destruct (stays p); cbn; rewrite ?Hi; now rewrite IH.
  - exact IH.
Qed.

Lemma resolve_pointwise (objs' : list Pipe.t) (f : Pipe.t -> Pipe.t) (ids : list nat) :
  (forall i, i ∈ ids -> objs' !! i = f <$> objs !! i) ->
  Game.resolve objs' ids = map f (Game.resolve objs ids).
Proof.
  unfold Game.resolve. induction ids as [| i ids IH]; intros Hp; [reflexivity |].
  cbn. rewrite (Hp i) by apply list_elem_of_here.
  destruct (objs !! i); cbn; rewrite IH; try reflexivity;
    intros j Hj; apply Hp, list_elem_of_further, Hj.
Qed.

End PipeStore.

(** The first loop of [move_pipes] moves every listed pipe once and no
    other, provided no pipe is listed twice. *)
Lemma move_all_lookup (ids : list nat) (objs : list Pipe.t) (j : nat) :
  NoDup ids ->
  Game.move_all ids objs !! j
  = if decide (j ∈ ids) then Pipe.move <$> objs !! j else objs !! j.
Proof.
  revert objs. induction ids as [| i ids IH]; intros objs Hnd.
  - cbn. destruct (decide (j ∈ [])) as [Hin | _]; [| reflexivity].
    now apply not_elem_of_nil in Hin.
  - apply list.NoDup_cons in Hnd as [Hi Hnd]. rewrite move_all_cons, IH by exact Hnd.
    destruct (decide (j ∈ ids)) as [Hj | Hj].
    + assert (i <> j) by (intros ->; contradiction).
      rewrite list_lookup_alter_ne by assumption.
      destruct (decide (j ∈ i :: ids)) as [_ | Hn]; [reflexivity |].
      exfalso. apply Hn. now apply list_elem_of_further.
    + destruct (decide (i = j)) as [-> | Hne].
      * rewrite list_lookup_alter_eq.
        destruct (decide (j ∈ j :: ids)) as [_ | Hn]; [reflexivity |].
        exfalso. apply Hn, list_elem_of_here.
      * rewrite list_lookup_alter_ne by assumption.
        destruct (decide (j ∈ i :: ids)) as [Hin | _]; [| reflexivity].
        apply elem_of_cons in Hin as [-> | Hin]; contradiction.
Qed.

Lemma length_move_all (ids : list nat) (objs : list Pipe.t) :
  List.length (Game.move_all ids objs) = List.length objs.
Proof.
  revert objs. induction ids as [| i ids IH]; intros objs; [reflexivity |].
  rewrite move_all_cons, IH. apply length_alter.
Qed.

Lemma pipe_list_move_pipes (g : Game.t) :
  pipe_list (Game.move_pipes g)
  = List.filter stays (Game.resolve (Game.move_all (Game.pipes g) (Game.pipe_objs g))
                                    (Game.pipes g)).
Proof. unfold pipe_list, Game.move_pipes. cbn. apply resolve_filter_on_screen. Qed.

(** X6. [move_pipes] leaves in [self.pipes] exactly the pipes that were
    there, each moved once, that are not off the screen, in the order
    they had, as long as no pipe is listed twice. *)
Theorem move_pipes_moves_and_prunes (g : Game.t) :
  NoDup (Game.pipes g) ->
  pipe_list (Game.move_pipes g) = List.filter stays (map Pipe.move (pipe_list g)).
Proof.
  intros Hnd. rewrite pipe_list_move_pipes. f_equal.
  apply resolve_pointwise. intros i Hi.
  rewrite move_all_lookup by exact Hnd.
  destruct (decide (i ∈ Game.pipes g)); [reflexivity | contradiction].
Qed.

Lemma move_pipes_moves_and_prunes_witness :
  pipe_list (Game.move_pipes game_two_pipes)
  = List.filter stays (map Pipe.move (pipe_list game_two_pipes)).
Proof.
  apply (move_pipes_moves_and_prunes game_two_pipes).
  vm_compute. apply list.NoDup_cons. split.
  - intros Hin. apply list_elem_of_singleton in Hin. discriminate Hin.
  - apply list.NoDup_singleton.
Defined.

Example two_pipes_one_pruned :
  map Pipe.x (pipe_list game_two_pipes) = [-97; 1940]
  /\ map Pipe.x (pipe_list (Game.move_pipes game_two_pipes)) = [1933].
Proof. vm_compute. split; reflexivity. Qed.

(** X7. After [move_pipes] no pipe of [self.pipes] is off the screen. *)
Theorem move_pipes_none_off_screen (g : Game.t) (p : Pipe.t) :
  p ∈ pipe_list (Game.move_pipes g) -> Pipe.is_off_screen p = false.
Proof.
  rewrite pipe_list_move_pipes. intros Hin.
  apply list_elem_of_In, filter_In in Hin as [_ Hstays].
  unfold stays in Hstays. now apply negb_true_iff in Hstays.
Qed.

Lemma move_pipes_none_off_screen_witness :
  Pipe.is_off_screen (Pipe.mk 100 100 1933 (Rect.mk 1933 0 100 100) (Rect.mk 1933 320 100 1620))
  = false.
Proof.
  apply (move_pipes_none_off_screen game_two_pipes).
  assert (pipe_list (Game.move_pipes game_two_pipes)
          = [Pipe.mk 100 100 1933 (Rect.mk 1933 0 100 100) (Rect.mk 1933 320 100 1620)])
    as -> by (vm_compute; reflexivity).
  apply list_elem_of_here.
Defined.

Lemma resolve_app_fresh (objs : list Pipe.t) (ids : list nat) (p : Pipe.t) :
  (forall i, i ∈ ids -> (i < List.length objs)%nat) ->
  Game.resolve (objs ++ [p]) (ids ++ [List.length objs]) = Game.resolve objs ids ++ [p].
Proof.
  intros Hvalid. unfold Game.resolve. rewrite omap_app. f_equal.
  - induction ids as [| i ids IH]; [reflexivity |].
    cbn. rewrite lookup_app_l by (apply Hvalid, list_elem_of_here).
    destruct (objs !! i); rewrite IH; try reflexivity;
      intros j Hj; apply Hvalid, list_elem_of_further, Hj.
  - cbn. now rewrite list_lookup_middle.
Qed.

Section Spawn.

Variable get_ticks : nat -> Z.
Variable raw : nat -> Z.
Variable g : Game.t.

Lemma generate_pipes_idle :
  get_ticks (Game.clock_calls g) - Game.last_pipe_time g <= Game.next_pipe_frequency g ->
  Game.generate_pipes get_ticks raw g = Game.clock_read g.
Proof.
  intros Hle. unfold Game.generate_pipes, Game.now. cbn.
  destruct (Z.gtb_spec (get_ticks (Game.clock_calls g) - Game.last_pipe_time g)
              (Game.next_pipe_frequency g)); [lia | reflexivity].
Qed.

Lemma generate_pipes_due :
  Game.next_pipe_frequency g < get_ticks (Game.clock_calls g) - Game.last_pipe_time g ->
  Game.pipe_objs (Game.generate_pipes get_ticks raw g)
  = Game.pipe_objs g ++ [Pipe.generate_pipes (Pipe.init (raw (Game.rand_calls g)))]
  /\ Game.pipes (Game.generate_pipes get_ticks raw g)
     = Game.pipes g ++ [List.length (Game.pipe_objs g)]
  /\ Game.last_pipe_time (Game.generate_pipes get_ticks raw g)
     = get_ticks (S (Game.clock_calls g)).
Proof.
  intros Hlt. unfold Game.generate_pipes, Game.now. cbn.
  destruct (Z.gtb_spec (get_ticks (Game.clock_calls g) - Game.last_pipe_time g)
              (Game.next_pipe_frequency g)); [| lia].
  cbn. destruct (_ >? _); [repeat split |].
  destruct (_ >? _); repeat split.
Qed.

End Spawn.

(** X8. [generate_pipes] spawns a pipe only when more time than the
    current interval has passed since the last spawn, and then exactly
    one: it is appended behind the pipes already listed, stands at the
    right edge ([x = 1940]) with a gap starting between 100 and 600, and
    the timer restarts from the clock as read after the spawn.  Otherwise
    nothing but the count of clock reads changes. *)
Theorem generate_pipes_spawns_one (get_ticks raw : nat -> Z) (g : Game.t) :
  let time := get_ticks (Game.clock_calls g) - Game.last_pipe_time g in
  let g' := Game.generate_pipes get_ticks raw g in
  (time <= Game.next_pipe_frequency g -> g' = Game.clock_read g)
  /\ (Game.next_pipe_frequency g < time ->
      pipes_valid g ->
      exists p,
        pipe_list g' = pipe_list g ++ [p]
        /\ Pipe.x p = 1940
        /\ 100 <= Pipe.height p <= 600
        /\ Game.last_pipe_time g' = get_ticks (S (Game.clock_calls g))).
Proof.
  cbn zeta. split; [apply generate_pipes_idle |].
  intros Hlt [_ Hvalid].
  destruct (generate_pipes_due get_ticks raw g Hlt) as (Hobjs & Hpipes & Hlast).
  exists (Pipe.generate_pipes (Pipe.init (raw (Game.rand_calls g)))).
  split; [| split; [reflexivity | split; [| exact Hlast]]].
  - unfold pipe_list. rewrite Hobjs, Hpipes. now apply resolve_app_fresh.
  - apply (randint_range 100 PIPE_HEIGHT). unfold PIPE_HEIGHT. lia.
Qed.

Lemma generate_pipes_spawns_one_witness :
  Game.generate_pipes clock_0 draws_0 game_0 = Game.clock_read game_0
  /\ exists p,
       pipe_list (Game.generate_pipes clock_5000 draws_0 game_0) = pipe_list game_0 ++ [p]
       /\ Pipe.x p = 1940
       /\ 100 <= Pipe.height p <= 600
       /\ Game.last_pipe_time (Game.generate_pipes clock_5000 draws_0 game_0)
          = clock_5000 (S (Game.clock_calls game_0)).
Proof.
  split.
  - apply (proj1 (generate_pipes_spawns_one clock_0 draws_0 game_0)).
    vm_compute. discriminate.
  - apply (proj2 (generate_pipes_spawns_one clock_5000 draws_0 game_0)).
    + vm_compute. reflexivity.
    + split; [apply NoDup_nil_2 |].
      intros i Hi. now apply not_elem_of_nil in Hi.
Defined.

(** X9. Whenever a pipe is spawned, the interval to the next spawn is
    drawn from 2500..4500 ms if the score is at most 4000 and from
    2000..3000 ms if it is higher; no interval is ever below 2000 ms. *)
Theorem spawn_interval_ranges (get_ticks raw : nat -> Z) (g : Game.t) :
  Game.next_pipe_frequency g < get_ticks (Game.clock_calls g) - Game.last_pipe_time g ->
  let next := Game.next_pipe_frequency (Game.generate_pipes get_ticks raw g) in
  (Score.current_score (Game.score_system g) <= 4000 -> 2500 <= next <= 4500)
  /\ (4000 < Score.current_score (Game.score_system g) -> 2000 <= next <= 3000)
  /\ 2000 <= next <= 4500.
Proof.
  intros Hlt. cbn zeta. rewrite generate_pipes_frequency by exact Hlt.
  pose proof (randint_range 2000 3000 (raw (S (S (Game.rand_calls g))))) as H1.
  pose proof (randint_range 2500 4500 (raw (S (Game.rand_calls g)))) as H2.
  destruct (Z.gtb_spec (Score.current_score (Game.score_system g)) 4000); lia.
Qed.

Lemma spawn_interval_ranges_witness :
  2000 <= Game.next_pipe_frequency (Game.generate_pipes clock_5000 draws_1000 game_10001)
       <= 3000.
Proof.
  apply (proj1 (proj2 (spawn_interval_ranges clock_5000 draws_1000 game_10001
                         ltac:(vm_compute; reflexivity)))).
  vm_compute. reflexivity.
Defined.

(** ** What every iteration of the loop keeps *)

Lemma check_collisions_cases (g : Game.t) :
  Game.check_collisions g
  = if Game.detect_collision (Game.share_pipes g)
    then if Bird.lives (Game.the_bird g) - 1 =? 0
         then Game.set_running false (Game.update_bird Bird.reduce_life (Game.share_pipes g))
         else Game.reset_bird_and_pipes
                (Game.update_bird Bird.reduce_life (Game.share_pipes g))
    else Game.set_score_system (Score.increment (Game.score_system g)) (Game.share_pipes g).
Proof.
  unfold Game.check_collisions.
  destruct (Game.detect_collision (Game.share_pipes g)); [| reflexivity].
  rewrite the_bird_update_bird. reflexivity.
Qed.

Section Invariant.

Variable get_ticks : nat -> Z.
Variable raw : nat -> Z.

(** [P] holds where the active part of an iteration may start, [Q]
    where an iteration ends. *)
Variable P Q : Game.t -> Prop.

Hypothesis P_level : forall g, P g -> P (Game.check_level_transition g).
Hypothesis P_event : forall g e, P g -> P (Game.handle_event g e).
Hypothesis P_clock : forall g, P g -> P (Game.clock_read g).
Hypothesis P_running : forall g, P g -> P (Game.set_running false g).
Hypothesis P_resume : forall g, P g -> P (Game.set_paused false g).
Hypothesis P_new_game : forall g, P g -> P (Game.start_new_game get_ticks raw g).
Hypothesis P_active : forall g, P g -> Q (end_of_active get_ticks raw g).
Hypothesis P_Q : forall g, P g -> Q g.
Hypothesis Q_P : forall g, Q g -> Game.running g = true -> P g.

Lemma kept_by_process_input (events : list Event) (g : Game.t) :
  P g -> P (Game.process_input events g).
Proof.
  unfold Game.process_input. revert g.
  induction events as [| e events IH]; intros g Hg; cbn; [exact Hg |].
  apply IH, P_event, Hg.
Qed.

Lemma kept_by_pause_menu (events : list Event) (o : Outcome Game.t) :
  match o with Continue g => P g | Exit => True end ->
  match foldl (Game.pause_event get_ticks raw) o events with
  | Continue g => P g
  | Exit => True
  end.
Proof.
  revert o. induction events as [| e events IH]; intros o Ho; cbn; [exact Ho |].
  apply IH. destruct o as [g |]; [| exact I].
  destruct e as [| [] |]; cbn; auto.
Qed.

Lemma kept_by_before_active (inp : Game.Input) (g g1 : Game.t) :
  P g -> Game.before_active get_ticks raw inp g = Continue g1 -> P g1.
Proof.
  intros Hg. unfold Game.before_active.
  set (g0 := Game.clock_read
               (Game.process_input (Game.events inp) (Game.check_level_transition g))).
  assert (P g0) as Hg0 by (apply P_clock, kept_by_process_input, P_level, Hg).
  destruct (Game.paused g0).
  - intros Hb. pose proof (kept_by_pause_menu (Game.menu_events inp) (Continue g0) Hg0) as Hm.
    now rewrite Hb in Hm.
  - intros [= <-]. exact Hg0.
Qed.

Lemma kept_by_tick (username : string) (inp : Game.Input)
    (s s' : Game.t * UserDatabase.t) :
  P (fst s) -> Game.tick get_ticks raw username inp s = Continue s' -> Q (fst s').
Proof.
  intros Hs. unfold Game.tick.
  destruct (Game.before_active get_ticks raw inp (fst s)) as [g1 |] eqn:Hb; [| discriminate].
  pose proof (kept_by_before_active inp (fst s) g1 Hs Hb) as Hg1.
  destruct (Game.game_started g1 && negb (Game.paused g1)); intros [= <-].
  - rewrite active_end_of_active. apply P_active, Hg1.
  - apply P_Q, Hg1.
Qed.

Lemma kept_by_running_loop (username : string) (inps : list Game.Input)
    (s s' : Game.t * UserDatabase.t) :
  Q (fst s) -> Game.running_loop get_ticks raw username inps s = Continue s' -> Q (fst s').
Proof.
  revert s. induction inps as [| inp inps IH]; intros s Hs; cbn.
  - intros [= <-]. exact Hs.
  - destruct (Game.running (fst s)) eqn:Hrun; [| intros [= <-]; exact Hs].
    destruct (Game.tick get_ticks raw username inp s) as [s1 |] eqn:Htick; [| discriminate].
    apply IH. eapply kept_by_tick; [| exact Htick]. apply Q_P; assumption.
Qed.

End Invariant.

(** *** The detector stays in sync *)

Section InSync.

Variable get_ticks : nat -> Z.
Variable raw : nat -> Z.

Lemma in_sync_level (g : Game.t) : in_sync g -> in_sync (Game.check_level_transition g).
Proof.
  intros [Hb Hp]. unfold Game.check_level_transition.
  destruct (_ && _); [split; [reflexivity | exact Hp] |].
  destruct (_ && _); [split; [reflexivity | exact Hp] |].
  destruct (_ && _); [split; [reflexivity | exact Hp] |].
  split; assumption.
Qed.

Lemma in_sync_event (g : Game.t) (e : Event) : in_sync g -> in_sync (Game.handle_event g e).
Proof.
  intros H. unfold Game.handle_event.
  destruct e as [| [] |]; try exact H.
  destruct (Game.game_started g); exact H.
Qed.

Lemma check_collisions_detector (g : Game.t) :
  Game.bird (Game.check_collisions g) = Game.bird g
  /\ CollisionDetector.bird (Game.collision_detector (Game.check_collisions g))
     = CollisionDetector.bird (Game.collision_detector g)
  /\ CollisionDetector.pipes (Game.collision_detector (Game.check_collisions g)) = GamePipes.
Proof.
  rewrite check_collisions_cases.
  destruct (Game.detect_collision _); [| repeat split].
  destruct (_ =? _); repeat split.
Qed.

Lemma in_sync_active (g : Game.t) : in_sync g -> in_sync (end_of_active get_ticks raw g).
Proof.
  intros [Hb _]. unfold end_of_active.
  set (moved := Game.move_pipes (Game.generate_pipes get_ticks raw g)).
  destruct (check_collisions_detector moved) as (H1 & H2 & H3).
  destruct (at_check_frame get_ticks raw g) as (Hb' & _ & _ & Hcd').
  split.
  - change (CollisionDetector.bird (Game.collision_detector (Game.check_collisions moved))
            = Game.bird (Game.check_collisions moved)).
    rewrite H1, H2.
    change (CollisionDetector.bird (Game.collision_detector (at_check get_ticks raw g))
            = Game.bird (at_check get_ticks raw g)).
    now rewrite Hb', Hcd'.
  - exact H3.
Qed.

End InSync.

(** X10. The detector never looks at a stale bird or a stale list: in
    the game as constructed, and at the end of every iteration of
    [running_loop] from then on, whatever the inputs, [collision_detector.bird]
    is [self.bird] and [collision_detector.pipes] is [self.pipes]. *)
Theorem detector_in_sync (get_ticks raw : nat -> Z) :
  in_sync (Game.init get_ticks raw)
  /\ forall (username : string) (inps : list Game.Input) (s s' : Game.t * UserDatabase.t),
       in_sync (fst s) ->
       Game.running_loop get_ticks raw username inps s = Continue s' ->
       in_sync (fst s').
Proof.
  split; [split; reflexivity |].
  intros username inps s s'.
  apply (kept_by_running_loop get_ticks raw in_sync in_sync); auto.
  - apply in_sync_level.
  - apply in_sync_event.
  - intros g _. split; reflexivity.
  - apply in_sync_active.
Qed.

Lemma detector_in_sync_witness : in_sync (fst (after some_play)).
Proof.
  apply (proj2 (detector_in_sync clock_0 draws_0) "alice"%string some_play
           (game_0, db_alice) (after some_play)).
  - split; reflexivity.
  - vm_compute. reflexivity.
Defined.

(** *** The rectangles keep their size *)

Lemma rects_60_insert (g : Game.t) (r : RectId) (c : Z * Z) :
  rects_60 g ->
  forall r', Rect.w ((<[r := Rect.set_center c (Game.rects g r)]> (Game.rects g)) r') = 60
             /\ Rect.h ((<[r := Rect.set_center c (Game.rects g r)]> (Game.rects g)) r') = 60.
Proof.
  intros H r'. destruct (decide (r = r')) as [<- | Hne].
  - rewrite fn_lookup_insert. exact (H r).
  - rewrite fn_lookup_insert_ne by exact Hne. exact (H r').
Qed.

Lemma rects_check_collisions (g : Game.t) :
  Game.rects (Game.check_collisions g) = Game.rects g.
Proof.
  rewrite check_collisions_cases.
  destruct (Game.detect_collision _); [| reflexivity].
  destruct (_ =? _); reflexivity.
Qed.

Section Rects60.

Variable get_ticks : nat -> Z.
Variable raw : nat -> Z.

Lemma rects_60_level (g : Game.t) : rects_60 g -> rects_60 (Game.check_level_transition g).
Proof.
  intros H. pose proof (check_level_transition_fired g) as Hstep.
  destruct (fired_transition g) as [new |]; [| now rewrite Hstep].
  destruct Hstep as (g0 & -> & _ & _ & Hrs).
  assert (rects_60 g0) as H0 by (intros r; rewrite Hrs; apply H).
  unfold Game.change_bird. intros r. cbn. apply rects_60_insert, H0.
Qed.

Lemma rects_60_event (g : Game.t) (e : Event) : rects_60 g -> rects_60 (Game.handle_event g e).
Proof.
  intros H. unfold Game.handle_event.
  destruct e as [| [] |]; try exact H.
  destruct (Game.game_started g); exact H.
Qed.

Lemma rects_60_active (g : Game.t) : rects_60 g -> rects_60 (end_of_active get_ticks raw g).
Proof.
  intros H. unfold end_of_active.
  set (moved := Game.move_pipes (Game.generate_pipes get_ticks raw g)).
  assert (rects_60 (Game.check_collisions moved)) as Hc.
  { intros r. rewrite rects_check_collisions.
    change (Game.rects moved) with (Game.rects (at_check get_ticks raw g)).
    destruct (at_check_frame get_ticks raw g) as (_ & _ & -> & _). apply H. }
  unfold Game.apply_gravity, Bird.apply_gravity. intros r. cbn.
  apply rects_60_insert, Hc.
Qed.

End Rects60.

(** X11. Every bird rectangle is 60 by 60 pixels in the game as
    constructed and stays so through every iteration of [running_loop]:
    hand-offs and gravity move rectangles and never resize them. *)
Theorem rects_stay_60 (get_ticks raw : nat -> Z) :
  rects_60 (Game.init get_ticks raw)
  /\ forall (username : string) (inps : list Game.Input) (s s' : Game.t * UserDatabase.t),
       rects_60 (fst s) ->
       Game.running_loop get_ticks raw username inps s = Continue s' ->
       rects_60 (fst s').
Proof.
  split; [intros []; split; reflexivity |].
  intros username inps s s'.
  apply (kept_by_running_loop get_ticks raw rects_60 rects_60); auto.
  - apply rects_60_level.
  - apply rects_60_event.
  - intros g _ []; split; reflexivity.
  - apply rects_60_active.
Qed.

Lemma rects_stay_60_witness : rects_60 (fst (after some_play)).
Proof.
  apply (proj2 (rects_stay_60 clock_0 draws_0) "alice"%string some_play
           (game_0, db_alice) (after some_play)).
  - intros []; split; reflexivity.
  - vm_compute. reflexivity.
Defined.

(** *** The list of pipes stays well formed *)

Lemma pipes_check_collisions (g : Game.t) :
  Game.pipe_objs (Game.check_collisions g) = Game.pipe_objs g
  /\ (Game.pipes (Game.check_collisions g) = Game.pipes g
      \/ Game.pipes (Game.check_collisions g) = []).
Proof.
  rewrite check_collisions_cases.
  destruct (Game.detect_collision _); [| split; [reflexivity | left; reflexivity]].
  destruct (_ =? _); split; try reflexivity; [left | right]; reflexivity.
Qed.

Lemma pipes_valid_nil (g : Game.t) : Game.pipes g = [] -> pipes_valid g.
Proof.
  intros E. unfold pipes_valid. rewrite E. split; [apply NoDup_nil_2 |].
  intros i Hi. now apply not_elem_of_nil in Hi.
Qed.

Section PipesValid.

Variable get_ticks : nat -> Z.
Variable raw : nat -> Z.

Lemma pipes_valid_level (g : Game.t) :
  pipes_valid g -> pipes_valid (Game.check_level_transition g).
Proof.
  intros H. unfold Game.check_level_transition.
  destruct (_ && _); [exact H |].
  destruct (_ && _); [exact H |].
  destruct (_ && _); exact H.
Qed.

Lemma pipes_valid_event (g : Game.t) (e : Event) :
  pipes_valid g -> pipes_valid (Game.handle_event g e).
Proof.
  intros H. unfold Game.handle_event.
  destruct e as [| [] |]; try exact H.
  destruct (Game.game_started g); exact H.
Qed.

Lemma pipes_valid_generate (g : Game.t) :
  pipes_valid g -> pipes_valid (Game.generate_pipes get_ticks raw g).
Proof.
  intros [Hnd Hvalid].
  destruct (Z.le_gt_cases (get_ticks (Game.clock_calls g) - Game.last_pipe_time g)
              (Game.next_pipe_frequency g)) as [Hle | Hlt].
  - rewrite generate_pipes_idle by exact Hle. split; assumption.
  - destruct (generate_pipes_due get_ticks raw g Hlt) as (Hobjs & Hpipes & _).
    unfold pipes_valid. rewrite Hobjs, Hpipes, length_app. cbn. split.
    + apply list.NoDup_app. split; [exact Hnd |]. split; [| apply list.NoDup_singleton].
      intros i Hi Hin. apply list_elem_of_singleton in Hin. subst i.
      specialize (Hvalid _ Hi). lia.
    + intros i Hi. apply elem_of_app in Hi as [Hi | Hi].
      * specialize (Hvalid _ Hi). lia.
      * apply list_elem_of_singleton in Hi. subst i. lia.
Qed.

Lemma NoDup_List_filter (f : nat -> bool) (ids : list nat) :
  NoDup ids -> NoDup (List.filter f ids).
Proof.
  induction 1 as [| i ids Hi Hnd IH]; cbn; [apply NoDup_nil_2 |].
  destruct (f i); [| exact IH].
  apply list.NoDup_cons. split; [| exact IH].
  intros Hin. apply Hi. apply list_elem_of_In, filter_In in Hin as [Hin _].
  now apply list_elem_of_In.
Qed.

Lemma pipes_valid_move (g : Game.t) : pipes_valid g -> pipes_valid (Game.move_pipes g).
Proof.
  intros [Hnd Hvalid]. unfold pipes_valid, Game.move_pipes. cbn.
  rewrite length_move_all. split.
  - apply NoDup_List_filter, Hnd.
  - intros i Hi. apply Hvalid.
    apply list_elem_of_In, filter_In in Hi as [Hi _]. now apply list_elem_of_In.
Qed.

Lemma pipes_valid_active (g : Game.t) :
  pipes_valid g -> pipes_valid (end_of_active get_ticks raw g).
Proof.
  intros H. unfold end_of_active.
  set (moved := Game.move_pipes (Game.generate_pipes get_ticks raw g)).
  assert (pipes_valid moved) as Hm by apply pipes_valid_move, pipes_valid_generate, H.
  destruct (pipes_check_collisions moved) as (Hobjs & [Hp | Hp]).
  - destruct Hm as [Hnd Hvalid]. unfold pipes_valid, Game.apply_gravity. cbn.
    rewrite Hobjs, Hp. split; assumption.
  - apply pipes_valid_nil. exact Hp.
Qed.

End PipesValid.

(** X12. [self.pipes] never lists a pipe twice and never refers to a
    pipe that does not exist: it is empty in the game as constructed, and
    spawning, pruning, the soft reset and a new game keep it so through
    every iteration of [running_loop]. *)
Theorem pipes_never_repeated (get_ticks raw : nat -> Z) :
  pipes_valid (Game.init get_ticks raw)
  /\ forall (username : string) (inps : list Game.Input) (s s' : Game.t * UserDatabase.t),
       pipes_valid (fst s) ->
       Game.running_loop get_ticks raw username inps s = Continue s' ->
       pipes_valid (fst s').
Proof.
  split; [now apply pipes_valid_nil |].
  intros username inps s s'.
  apply (kept_by_running_loop get_ticks raw pipes_valid pipes_valid); auto.
  - apply pipes_valid_level.
  - apply pipes_valid_event.
  - intros g _. now apply pipes_valid_nil.
  - apply pipes_valid_active.
Qed.

Lemma pipes_never_repeated_witness : pipes_valid (fst (after some_play)).
Proof.
  apply (proj2 (pipes_never_repeated clock_0 draws_0) "alice"%string some_play
           (game_0, db_alice) (after some_play)).
  - now apply pipes_valid_nil.
  - vm_compute. reflexivity.
Defined.

(** *** The session high score is never touched *)

Section HighScore.

Variable get_ticks : nat -> Z.
Variable raw : nat -> Z.
Variable h : Z.

Let keeps (g : Game.t) : Prop := Score.high_score (Game.score_system g) = h.

Lemma high_score_level (g : Game.t) : keeps g -> keeps (Game.check_level_transition g).
Proof. unfold keeps. now rewrite score_check_level_transition. Qed.

Lemma high_score_event (g : Game.t) (e : Event) : keeps g -> keeps (Game.handle_event g e).
Proof. unfold keeps. now rewrite score_handle_event. Qed.

Lemma high_score_active (g : Game.t) : keeps g -> keeps (end_of_active get_ticks raw g).
Proof.
  unfold keeps, end_of_active. intros H.
  rewrite score_apply_gravity, score_check_collisions.
  rewrite score_move_pipes, score_generate_pipes.
  destruct (Game.detect_collision _); [exact H | exact H].
Qed.

Lemma high_score_running_loop (username : string) (inps : list Game.Input)
    (s s' : Game.t * UserDatabase.t) :
  keeps (fst s) ->
  Game.running_loop get_ticks raw username inps s = Continue s' ->
  keeps (fst s').
Proof.
  apply (kept_by_running_loop get_ticks raw keeps keeps); auto.
  - apply high_score_level.
  - apply high_score_event.
  - apply high_score_active.
Qed.

End HighScore.

(** X13. [running_loop] never changes [score_system.high_score]: no
    iteration calls [Score.update_high_score], a new game zeroes only the
    current score, so the value set when the session starts is the one
    every later comparison with the current score uses. *)
Theorem session_high_score_constant (get_ticks raw : nat -> Z) (username : string)
    (inps : list Game.Input) (s s' : Game.t * UserDatabase.t) :
  Game.running_loop get_ticks raw username inps s = Continue s' ->
  Score.high_score (Game.score_system (fst s')) = Score.high_score (Game.score_system (fst s)).
Proof.
  intros Hrun.
  apply (high_score_running_loop get_ticks raw
           (Score.high_score (Game.score_system (fst s))) username inps s s');
    [reflexivity | exact Hrun].
Qed.

Lemma session_high_score_constant_witness :
  Score.high_score (Game.score_system (fst (after some_play))) = 0.
Proof.
  apply (session_high_score_constant clock_0 draws_0 "alice" some_play
           (game_0, db_alice) (after some_play)).
  vm_compute. reflexivity.
Defined.

(** *** Lives *)

Lemma lives_check_level_transition (g : Game.t) :
  Bird.lives (Game.the_bird (Game.check_level_transition g)) = Bird.lives (Game.the_bird g).
Proof.
  pose proof (check_level_transition_fired g) as Hstep.
  destruct (fired_transition g) as [new |]; [| now rewrite Hstep].
  destruct Hstep as (g0 & -> & Hb & Hbs & _).
  destruct (change_bird_spec new g0) as (_ & _ & -> & _). cbn.
  unfold Game.the_bird. now rewrite Hb, Hbs.
Qed.

Lemma lives_handle_event (g : Game.t) (e : Event) :
  Bird.lives (Game.the_bird (Game.handle_event g e)) = Bird.lives (Game.the_bird g).
Proof.
  unfold Game.handle_event.
  destruct e as [| [] |]; try reflexivity.
  destruct (Game.game_started g);
    change (Bird.lives (Game.the_bird (Game.update_bird Bird.flap ?h)))
      with (Bird.lives (Game.the_bird (Game.update_bird Bird.flap h)));
    rewrite the_bird_update_bird; reflexivity.
Qed.

Lemma lives_apply_gravity (g : Game.t) :
  Bird.lives (Game.the_bird (Game.apply_gravity g)) = Bird.lives (Game.the_bird g)
  /\ Game.running (Game.apply_gravity g) = Game.running g.
Proof.
  split; [| reflexivity].
  unfold Game.apply_gravity, Game.the_bird at 1. cbn. now rewrite fn_lookup_insert.
Qed.

Section Lives.

Variable get_ticks : nat -> Z.
Variable raw : nat -> Z.

Lemma alive_level (g : Game.t) : alive g -> alive (Game.check_level_transition g).
Proof. unfold alive. now rewrite lives_check_level_transition. Qed.

Lemma alive_event (g : Game.t) (e : Event) : alive g -> alive (Game.handle_event g e).
Proof. unfold alive. now rewrite lives_handle_event. Qed.

Lemma alive_new_game (g : Game.t) : alive (Game.start_new_game get_ticks raw g).
Proof. unfold alive. cbn. lia. Qed.

(** A collision takes exactly one life, and the game stops running
    exactly when none is left. *)
Lemma lives_left_active (g : Game.t) : alive g -> lives_left (end_of_active get_ticks raw g).
Proof.
  intros Halive. unfold end_of_active.
  set (moved := Game.move_pipes (Game.generate_pipes get_ticks raw g)).
  assert (Bird.lives (Game.the_bird moved) = Bird.lives (Game.the_bird g)) as Hm.
  { change (Game.the_bird moved) with (Game.the_bird (at_check get_ticks raw g)).
    now destruct (at_check_rects get_ticks raw g) as (-> & _). }
  unfold lives_left.
  destruct (lives_apply_gravity (Game.check_collisions moved)) as [-> ->].
  rewrite check_collisions_cases, Hm. unfold alive in Halive.
  destruct (Game.detect_collision _).
  - destruct (Z.eqb_spec (Bird.lives (Game.the_bird g) - 1) 0) as [E | E].
    + change (Game.the_bird (Game.set_running false ?h)) with (Game.the_bird h).
      rewrite the_bird_update_bird.
      change (Bird.lives (Bird.reduce_life (Game.the_bird (Game.share_pipes moved))))
        with (Bird.lives (Game.the_bird moved) - 1).
      rewrite Hm. cbn. split; [lia | discriminate].
    + rewrite the_bird_reset_bird_and_pipes, the_bird_update_bird. cbn [Bird.lives].
      change (Bird.lives (Bird.reduce_life (Game.the_bird (Game.share_pipes moved))))
        with (Bird.lives (Game.the_bird moved) - 1).
      rewrite Hm. split; [lia | intros _; lia].
  - change (Game.the_bird (Game.set_score_system ?x (Game.share_pipes moved)))
      with (Game.the_bird moved).
    rewrite Hm. split; [lia | intros _; lia].
Qed.

End Lives.

(** X14. The bird starts with 3 lives and, through every iteration of
    [running_loop], has between 0 and 3: the count never goes below 0,
    and while the game is running at least one life is left. *)
Theorem lives_never_negative (get_ticks raw : nat -> Z) :
  lives_left (Game.init get_ticks raw)
  /\ forall (username : string) (inps : list Game.Input) (s s' : Game.t * UserDatabase.t),
       lives_left (fst s) ->
       Game.running_loop get_ticks raw username inps s = Continue s' ->
       lives_left (fst s').
Proof.
  split; [unfold lives_left; cbn; lia |].
  intros username inps s s'.
  apply (kept_by_running_loop get_ticks raw alive lives_left).
  - apply alive_level.
  - apply alive_event.
  - intros g H; exact H.
  - intros g H; exact H.
  - intros g H; exact H.
  - intros g _; apply alive_new_game.
  - apply lives_left_active.
  - intros g H. unfold alive in H. unfold lives_left. split; [lia | intros _; lia].
  - intros g [H1 H2] Hrun. specialize (H2 Hrun). unfold alive. lia.
Qed.

Lemma lives_never_negative_witness :
  lives_left (fst (after (press_space :: repeat no_input 47))).
Proof.
  apply (proj2 (lives_never_negative clock_0 draws_0) "alice"%string
           (press_space :: repeat no_input 47)
           (game_0, db_alice) (after (press_space :: repeat no_input 47))).
  - unfold lives_left. vm_compute. repeat split; discriminate.
  - vm_compute. reflexivity.
Defined.

(** ** Level stages *)

Lemma current_lvl_range (g : Game.t) : 0 <= Game.current_lvl g < 3.
Proof. unfold Game.current_lvl. apply Z.mod_pos_bound. lia. Qed.

Lemma current_lvl_check_level_transition (g : Game.t) :
  Game.current_lvl (Game.check_level_transition g) = Game.current_lvl g.
Proof. unfold Game.current_lvl. now rewrite score_check_level_transition. Qed.

(** What a fired transition sets, and what holds when none fires. *)
Lemma level_transition_sets (g : Game.t) :
  let g' := Game.check_level_transition g in
  match fired_transition g with
  | Some B2 =>
      Game.current_lvl g = 1
      /\ Game.level_2_reached g' = true /\ Game.level_3_reached g' = false
      /\ Game.level_4_reached g' = false
      /\ Game.background_color g' = Game.background_color2
      /\ Game.ground_image g' = Game.ground_image2 /\ Game.bird g' = B2
  | Some B3 =>
      Game.current_lvl g = 2
      /\ Game.level_2_reached g' = false /\ Game.level_3_reached g' = true
      /\ Game.level_4_reached g' = false
      /\ Game.background_color g' = Game.background_color3
      /\ Game.ground_image g' = Game.ground_image3 /\ Game.bird g' = B3
  | Some B1 =>
      Game.current_lvl g = 0
      /\ Game.level_2_reached g' = false /\ Game.level_3_reached g' = false
      /\ Game.level_4_reached g' = true
      /\ Game.background_color g' = Game.background_color1
      /\ Game.ground_image g' = Game.ground_image1 /\ Game.bird g' = B1
  | Some B0 => False
  | None =>
      g' = g
      /\ (Game.current_lvl g = 1 -> Game.level_2_reached g = true)
      /\ (Game.current_lvl g = 2 -> Game.level_3_reached g = true)
      /\ (Game.current_lvl g = 0 -> Game.level_4_reached g = true)
  end.
Proof.
  cbn zeta. unfold fired_transition, Game.check_level_transition.
  destruct (Z.eqb_spec (Game.current_lvl g) 1) as [E1 | E1];
    destruct (Game.level_2_reached g) eqn:F2; cbn [andb negb];
    try (repeat split; first [assumption | reflexivity]);
    destruct (Z.eqb_spec (Game.current_lvl g) 2) as [E2 | E2];
    destruct (Game.level_3_reached g) eqn:F3; cbn [andb negb];
    try (repeat split; first [assumption | reflexivity]);
    destruct (Z.eqb_spec (Game.current_lvl g) 0) as [E0 | E0];
    destruct (Game.level_4_reached g) eqn:F4; cbn [andb negb];
    try (repeat split; first [assumption | reflexivity]);
    repeat split; intros; first [reflexivity | assumption | lia].
Qed.

(** X15. [check_level_transition] does its work once per stage: a
    second call right after the first changes nothing, and after any call
    the "reached" flag of the stage of the current score is set. *)
Theorem check_level_transition_once (g : Game.t) :
  let g' := Game.check_level_transition g in
  Game.check_level_transition g' = g'
  /\ fired_transition g' = None
  /\ (Game.current_lvl g = 1 -> Game.level_2_reached g' = true)
  /\ (Game.current_lvl g = 2 -> Game.level_3_reached g' = true)
  /\ (Game.current_lvl g = 0 -> Game.level_4_reached g' = true).
Proof.
  cbn zeta. pose proof (level_transition_sets g) as H. cbn zeta in H.
  assert (fired_transition (Game.check_level_transition g) = None
          /\ (Game.current_lvl g = 1 -> Game.level_2_reached (Game.check_level_transition g) = true)
          /\ (Game.current_lvl g = 2 -> Game.level_3_reached (Game.check_level_transition g) = true)
          /\ (Game.current_lvl g = 0 -> Game.level_4_reached (Game.check_level_transition g) = true))
    as (Hnone & Hflags).
  { unfold fired_transition at 1. rewrite current_lvl_check_level_transition.
    destruct (fired_transition g) as [[] |] eqn:Hf.
    - contradiction.
    - destruct H as (E & -> & -> & -> & _). rewrite E. cbn. repeat split; intros; lia || reflexivity.
    - destruct H as (E & -> & -> & -> & _). rewrite E. cbn. repeat split; intros; lia || reflexivity.
    - destruct H as (E & -> & -> & -> & _). rewrite E. cbn. repeat split; intros; lia || reflexivity.
    - destruct H as (-> & H1 & H2 & H0). fold (fired_transition g). rewrite Hf.
      repeat split; assumption. }
  split; [| split; [exact Hnone | exact Hflags]].
  pose proof (check_level_transition_fired (Game.check_level_transition g)) as Hstep.
  now rewrite Hnone in Hstep.
Qed.

Lemma check_level_transition_once_witness :
  Game.level_2_reached (Game.check_level_transition game_300) = true.
Proof.
  apply (proj1 (proj2 (proj2 (check_level_transition_once game_300)))).
  vm_compute. reflexivity.
Defined.

Section Themed.

Variable get_ticks : nat -> Z.
Variable raw : nat -> Z.

Lemma themed_level (g : Game.t) : themed g -> themed (Game.check_level_transition g).
Proof.
  intros Hg. pose proof (level_transition_sets g) as H. cbn zeta in H.
  destruct (fired_transition g) as [[] |].
  - contradiction.
  - destruct H as (_ & F2 & F3 & F4 & Hc & Hi & Hb). unfold themed.
    rewrite F2, F3, F4, Hc, Hi, Hb. repeat split; discriminate.
  - destruct H as (_ & F2 & F3 & F4 & Hc & Hi & Hb). unfold themed.
    rewrite F2, F3, F4, Hc, Hi, Hb. repeat split; discriminate.
  - destruct H as (_ & F2 & F3 & F4 & Hc & Hi & Hb). unfold themed.
    rewrite F2, F3, F4, Hc, Hi, Hb. repeat split; discriminate.
  - destruct H as (-> & _). exact Hg.
Qed.

Lemma themed_event (g : Game.t) (e : Event) : themed g -> themed (Game.handle_event g e).
Proof.
  intros H. unfold Game.handle_event.
  destruct e as [| [] |]; try exact H.
  destruct (Game.game_started g); exact H.
Qed.

Lemma themed_check_collisions (g : Game.t) : themed g -> themed (Game.check_collisions g).
Proof.
  intros H. rewrite check_collisions_cases.
  destruct (Game.detect_collision _); [| exact H].
  destruct (_ =? _); exact H.
Qed.

Lemma themed_generate (g : Game.t) : themed g -> themed (Game.generate_pipes get_ticks raw g).
Proof.
  intros H. unfold Game.generate_pipes. cbn.
  destruct (_ >? _); [| exact H]. cbn.
  destruct (_ >? _); [exact H |].
  destruct (_ >? _); exact H.
Qed.

Lemma themed_same_theme (g g' : Game.t) :
  Game.level_2_reached g' = Game.level_2_reached g ->
  Game.level_3_reached g' = Game.level_3_reached g ->
  Game.level_4_reached g' = Game.level_4_reached g ->
  Game.background_color g' = Game.background_color g ->
  Game.ground_image g' = Game.ground_image g ->
  Game.bird g' = Game.bird g ->
  themed g -> themed g'.
Proof. unfold themed. intros -> -> -> -> -> ->. tauto. Qed.

Lemma themed_move_pipes (g : Game.t) : themed g -> themed (Game.move_pipes g).
Proof. apply themed_same_theme; reflexivity. Qed.

Lemma themed_apply_gravity (g : Game.t) : themed g -> themed (Game.apply_gravity g).
Proof. apply themed_same_theme; reflexivity. Qed.

Lemma themed_active (g : Game.t) : themed g -> themed (end_of_active get_ticks raw g).
Proof.
  intros H. unfold end_of_active.
  apply themed_apply_gravity, themed_check_collisions, themed_move_pipes, themed_generate, H.
Qed.

End Themed.

(** X16. At most one "reached" flag is set at a time, and whenever one
    is set the background colour, the ground image and the active bird
    are those of its stage: this holds in the game as constructed and
    through every iteration of [running_loop]. *)
Theorem stage_theme_consistent (get_ticks raw : nat -> Z) :
  themed (Game.init get_ticks raw)
  /\ forall (username : string) (inps : list Game.Input) (s s' : Game.t * UserDatabase.t),
       themed (fst s) ->
       Game.running_loop get_ticks raw username inps s = Continue s' ->
       themed (fst s').
Proof.
  split; [repeat split; discriminate |].
  intros username inps s s'.
  apply (kept_by_running_loop get_ticks raw themed themed); auto.
  - apply themed_level.
  - apply themed_event.
  - intros g _. repeat split; discriminate.
  - apply themed_active.
Qed.

Lemma stage_theme_consistent_witness : themed game_300.
Proof.
  apply (proj2 (stage_theme_consistent clock_0 draws_0) "alice"%string
           (concat (repeat flap_round 15)) (game_0, db_alice)
           (after (concat (repeat flap_round 15)))).
  - repeat split; discriminate.
  - vm_compute. reflexivity.
Defined.

(** X17. When the theme is consistent, [check_level_transition] leaves
    the game in the stage of its score: scores whose band
    [(score // 300) % 3] is 1 play on the second background and ground
    with [bird2], band 2 with the third and [bird3], band 0 with the
    first and [bird1]. *)
Theorem stage_follows_score (g : Game.t) :
  themed g ->
  let g' := Game.check_level_transition g in
  (Game.current_lvl g = 1 ->
     Game.background_color g' = Game.background_color2
     /\ Game.ground_image g' = Game.ground_image2 /\ Game.bird g' = B2)
  /\ (Game.current_lvl g = 2 ->
        Game.background_color g' = Game.background_color3
        /\ Game.ground_image g' = Game.ground_image3 /\ Game.bird g' = B3)
  /\ (Game.current_lvl g = 0 ->
        Game.background_color g' = Game.background_color1
        /\ Game.ground_image g' = Game.ground_image1 /\ Game.bird g' = B1).
Proof.
  intros Hg. cbn zeta. pose proof (level_transition_sets g) as H. cbn zeta in H.
  destruct (fired_transition g) as [[] |].
  - contradiction.
  - destruct H as (E & _ & _ & _ & Hc & Hi & Hb). repeat split; intros; lia || assumption.
  - destruct H as (E & _ & _ & _ & Hc & Hi & Hb). repeat split; intros; lia || assumption.
  - destruct H as (E & _ & _ & _ & Hc & Hi & Hb). repeat split; intros; lia || assumption.
  - destruct H as (-> & H1 & H2 & H0). destruct Hg as (T2 & T3 & T4).
    split; [| split].
    + intros E. destruct (T2 (H1 E)) as (_ & _ & ? & ? & ?). auto.
    + intros E. destruct (T3 (H2 E)) as (_ & _ & ? & ? & ?). auto.
    + intros E. destruct (T4 (H0 E)) as (_ & _ & ? & ? & ?). auto.
Qed.

Lemma stage_follows_score_witness :
  Game.background_color (Game.check_level_transition game_300) = Game.background_color2
  /\ Game.ground_image (Game.check_level_transition game_300) = Game.ground_image2
  /\ Game.bird (Game.check_level_transition game_300) = B2.
Proof.
  apply (proj1 (stage_follows_score game_300 ltac:(vm_compute; repeat split; discriminate))).
  vm_compute. reflexivity.
Defined.

(** ** Collision detection and its consequences *)

(** X18. [detect_collision] answers true exactly when the box of the
    detector's bird overlaps the top or the bottom rectangle of some pipe
    of the detector's list, or the bird's [y] is below 0, or it is above
    [screen_height - rect.height]. *)
Theorem detect_collision_iff (g : Game.t) :
  Game.detect_collision g = true
  <-> (exists pipe, pipe ∈ Game.resolve (Game.pipe_objs g) (Game.detector_pipes g)
                    /\ (Rect.colliderect (Game.detector_rect g) (Pipe.top pipe) = true
                        \/ Rect.colliderect (Game.detector_rect g) (Pipe.bottom pipe) = true))
      \/ (Bird.y (Game.detector_bird g) < 0)%Q
      \/ (inject_Z (CollisionDetector.screen_height (Game.collision_detector g)
                    - Rect.h (Game.detector_rect g)) < Bird.y (Game.detector_bird g))%Q.
Proof.
  unfold Game.detect_collision. rewrite detect_spec.
  rewrite !orb_true_iff, !Qlt_bool_true, existsb_exists.
  split.
  - intros [[(p & Hin & Hov) | H] | H]; [left | right; left; exact H | right; right; exact H].
    exists p. split; [now apply list_elem_of_In |].
    unfold overlaps in Hov. now apply orb_true_iff in Hov.
  - intros [(p & Hin & Hov) | [H | H]]; [left; left | left; right; exact H | right; exact H].
    exists p. split; [now apply list_elem_of_In |].
    unfold overlaps. now apply orb_true_iff.
Qed.

Lemma detect_collision_iff_witness :
  Game.detect_collision (place_bird (inject_Z (-1)) game_0) = true.
Proof.
  apply (proj2 (detect_collision_iff (place_bird (inject_Z (-1)) game_0))).
  right. left. vm_compute. reflexivity.
Defined.

(** X19. A collision with exactly one life left ends the game and does
    nothing else: [running] becomes false and the lives 0, while the bird
    stays where it is with the speed it has, the pipes stay listed,
    [game_started] and the score are unchanged: there is no reset. *)
Theorem last_life_ends_game (g : Game.t) :
  Game.detect_collision (Game.share_pipes g) = true ->
  Bird.lives (Game.the_bird g) = 1 ->
  let g' := Game.check_collisions g in
  Game.running g' = false
  /\ Bird.lives (Game.the_bird g') = 0
  /\ Bird.x (Game.the_bird g') = Bird.x (Game.the_bird g)
  /\ Bird.y (Game.the_bird g') = Bird.y (Game.the_bird g)
  /\ Bird.speed (Game.the_bird g') = Bird.speed (Game.the_bird g)
  /\ Game.pipes g' = Game.pipes g
  /\ Game.game_started g' = Game.game_started g
  /\ Game.score_system g' = Game.score_system g.
Proof.
  intros Hhit Hlives. cbn zeta. rewrite check_collisions_cases, Hhit.
  destruct (Z.eqb_spec (Bird.lives (Game.the_bird g) - 1) 0) as [_ | Hne]; [| lia].
  change (Game.the_bird (Game.set_running false ?h)) with (Game.the_bird h).
  rewrite the_bird_update_bird.
  change (Game.the_bird (Game.share_pipes g)) with (Game.the_bird g).
  cbn. rewrite Hlives. repeat split.
Qed.

Lemma last_life_ends_game_witness :
  let g := Game.update_bird Bird.reduce_life (Game.update_bird Bird.reduce_life game_fallen) in
  Game.running (Game.check_collisions g) = false
  /\ Bird.lives (Game.the_bird (Game.check_collisions g)) = 0
  /\ Bird.x (Game.the_bird (Game.check_collisions g)) = Bird.x (Game.the_bird g)
  /\ Bird.y (Game.the_bird (Game.check_collisions g)) = Bird.y (Game.the_bird g)
  /\ Bird.speed (Game.the_bird (Game.check_collisions g)) = Bird.speed (Game.the_bird g)
  /\ Game.pipes (Game.check_collisions g) = Game.pipes g
  /\ Game.game_started (Game.check_collisions g) = Game.game_started g
  /\ Game.score_system (Game.check_collisions g) = Game.score_system g.
Proof.
  apply (last_life_ends_game
           (Game.update_bird Bird.reduce_life (Game.update_bird Bird.reduce_life game_fallen))).
  - vm_compute. reflexivity.
  - vm_compute. reflexivity.
Defined.


(** ** Input, pause menu and the end of an iteration *)

Lemma flap_flap (b : Bird.t) : Bird.flap (Bird.flap b) = Bird.flap b.
Proof. reflexivity. Qed.

Lemma handle_event_fields (g : Game.t) (e : Event) :
  Game.running (Game.handle_event g e) = Game.running g && negb (is_quit e)
  /\ Game.paused (Game.handle_event g e) = Game.paused g || is_r e
  /\ Game.game_started (Game.handle_event g e) = Game.game_started g || is_space e
  /\ Game.the_bird (Game.handle_event g e)
     = (if is_space e then Bird.flap (Game.the_bird g) else Game.the_bird g)
  /\ Game.bird (Game.handle_event g e) = Game.bird g
  /\ Game.pipes (Game.handle_event g e) = Game.pipes g.
Proof.
  unfold Game.handle_event.
  destruct e as [| [] |]; cbn [is_quit is_r is_space];
    rewrite ?andb_true_r, ?andb_false_r, ?orb_true_r, ?orb_false_r;
    try (repeat split; reflexivity).
  destruct (Game.game_started g) eqn:Hs.
  - rewrite the_bird_update_bird. repeat split. cbn. exact Hs.
  - rewrite the_bird_update_bird. repeat split.
Qed.

Lemma process_input_fields (events : list Event) (g : Game.t) :
  Game.running (Game.process_input events g)
  = Game.running g && negb (existsb is_quit events)
  /\ Game.paused (Game.process_input events g) = Game.paused g || existsb is_r events
  /\ Game.game_started (Game.process_input events g)
     = Game.game_started g || existsb is_space events
  /\ Game.the_bird (Game.process_input events g)
     = (if existsb is_space events then Bird.flap (Game.the_bird g) else Game.the_bird g)
  /\ Game.bird (Game.process_input events g) = Game.bird g
  /\ Game.pipes (Game.process_input events g) = Game.pipes g.
Proof.
  unfold Game.process_input. revert g.
  induction events as [| e events IH]; intros g.
  - cbn. rewrite andb_true_r, !orb_false_r. repeat split.
  - cbn [foldl existsb].
    destruct (IH (Game.handle_event g e)) as (-> & -> & -> & -> & -> & ->).
    destruct (handle_event_fields g e) as (-> & -> & -> & -> & -> & ->).
    rewrite negb_orb, andb_assoc, !orb_assoc.
    repeat split.
    destruct (is_space e), (existsb is_space events); cbn; reflexivity.
Qed.

(** X21. [process_input] over a batch of events: QUIT anywhere in the
    batch stops the game and nothing restarts it; an R key pauses; a
    SPACE key starts the game and sets the speed of the active bird to
    -9 whatever it was and however often SPACE occurs; without SPACE the
    bird is untouched.  The score and the pipes are never changed. *)
Theorem process_input_effect (events : list Event) (g : Game.t) :
  let g' := Game.process_input events g in
  Game.running g' = Game.running g && negb (existsb is_quit events)
  /\ Game.paused g' = Game.paused g || existsb is_r events
  /\ Game.game_started g' = Game.game_started g || existsb is_space events
  /\ Game.the_bird g'
     = (if existsb is_space events then Bird.flap (Game.the_bird g) else Game.the_bird g)
  /\ Game.score_system g' = Game.score_system g
  /\ Game.pipes g' = Game.pipes g.
Proof.
  cbn zeta.
  destruct (process_input_fields events g) as (H1 & H2 & H3 & H4 & _ & H6).
  rewrite score_process_input. repeat split; first [assumption | reflexivity].
Qed.

Lemma pause_menu_exit (get_ticks raw : nat -> Z) (events : list Event) (o : Outcome Game.t) :
  foldl (Game.pause_event get_ticks raw) o events = Exit
  <-> o = Exit \/ existsb is_q events = true.
Proof.
  revert o. induction events as [| e events IH]; intros o; cbn [foldl existsb].
  - split; [auto | intros [H | H]; [exact H | discriminate]].
  - rewrite IH. destruct o as [g |].
    + destruct e as [| [] |]; cbn; split; intros [H | H]; try discriminate; auto.
    + cbn. split; intros _; left; reflexivity.
Qed.

Lemma paused_check_level_transition (g : Game.t) :
  Game.paused (Game.check_level_transition g) = Game.paused g.
Proof.
  unfold Game.check_level_transition.
  destruct (_ && _); [reflexivity |].
  destruct (_ && _); [reflexivity |].
  destruct (_ && _); reflexivity.
Qed.

(** X22. An iteration of the loop ends the process exactly when the
    game is paused, from before or by an R key of this iteration, and Q
    is among the keys the pause menu reads; in every other case it
    completes. *)
Theorem tick_exits_iff (get_ticks raw : nat -> Z) (username : string)
    (inp : Game.Input) (s : Game.t * UserDatabase.t) :
  Game.tick get_ticks raw username inp s = Exit
  <-> Game.paused (fst s) || existsb is_r (Game.events inp) = true
      /\ existsb is_q (Game.menu_events inp) = true.
Proof.
  unfold Game.tick, Game.before_active.
  set (g0 := Game.clock_read
               (Game.process_input (Game.events inp) (Game.check_level_transition (fst s)))).
  assert (Game.paused g0 = Game.paused (fst s) || existsb is_r (Game.events inp)) as Hp.
  { subst g0.
    change (Game.paused (Game.clock_read ?h)) with (Game.paused h).
    destruct (process_input_fields (Game.events inp) (Game.check_level_transition (fst s)))
      as (_ & -> & _).
    now rewrite paused_check_level_transition. }
  rewrite <- Hp. destruct (Game.paused g0) eqn:Hpg0; cbv iota.
  - pose proof (pause_menu_exit get_ticks raw (Game.menu_events inp) (Continue g0)) as Hm.
    destruct (foldl (Game.pause_event get_ticks raw) (Continue g0) (Game.menu_events inp))
      as [g1 |]; cbv iota.
    + split.
      * destruct (Game.game_started g1 && negb (Game.paused g1)); discriminate.
      * intros [_ Hq]. discriminate (proj2 Hm (or_intror Hq)).
    + split; [| reflexivity]. intros _. split; [reflexivity |].
      destruct (proj1 Hm eq_refl) as [H | H]; [discriminate | exact H].
  - split.
    + destruct (Game.game_started g0 && negb (Game.paused g0)); discriminate.
    + intros [H _]. discriminate.
Qed.

Lemma tick_exits_iff_witness :
  Game.tick clock_0 draws_0 "alice" (Game.mkInput [] [KEYDOWN K_q]) (game_paused, db_alice)
  = Exit.
Proof.
  apply (proj2 (tick_exits_iff clock_0 draws_0 "alice" (Game.mkInput [] [KEYDOWN K_q])
                  (game_paused, db_alice))).
  split; vm_compute; reflexivity.
Defined.

(** ** The stored scores across an iteration *)

(** [Game.active] in terms of the game at the end of the active part *)
Lemma active_pair (get_ticks raw : nat -> Z) (username : string)
    (g : Game.t) (db : UserDatabase.t) :
  Game.active get_ticks raw username (g, db)
  = (end_of_active get_ticks raw g,
     if Score.current_score (Game.score_system (end_of_active get_ticks raw g))
        >? Score.high_score (Game.score_system (end_of_active get_ticks raw g))
     then UserDatabase.update_high_score username
            (Score.current_score (Game.score_system (end_of_active get_ticks raw g))) db
     else db).
Proof. reflexivity. Qed.

Lemma tick_database (get_ticks raw : nat -> Z) (username : string) (inp : Game.Input)
    (g g' : Game.t) (db db' : UserDatabase.t) :
  Game.tick get_ticks raw username inp (g, db) = Continue (g', db') ->
  db' = db
  \/ (Score.high_score (Game.score_system g') < Score.current_score (Game.score_system g')
      /\ db' = UserDatabase.update_high_score username
                 (Score.current_score (Game.score_system g')) db).
Proof.
  unfold Game.tick. cbn [fst snd].
  destruct (Game.before_active get_ticks raw inp g) as [g1 |]; [| discriminate].
  destruct (Game.game_started g1 && negb (Game.paused g1)); [| intros [= _ <-]; now left].
  rewrite active_pair. generalize (end_of_active get_ticks raw g1). intros e [= -> <-].
  destruct (Z.gtb_spec (Score.current_score (Game.score_system g'))
              (Score.high_score (Game.score_system g')));
    [right; split; [lia | reflexivity] | now left].
Qed.

(** X23. An iteration of the loop never lowers a stored high score and
    never touches the account of another user: it either leaves the
    store alone or calls [update_high_score] for the player with the
    current score, and when the store does change, the player's stored
    high score is that current score. *)
Theorem tick_stored_scores (get_ticks raw : nat -> Z) (username : string)
    (inp : Game.Input) (g g' : Game.t) (db db' : UserDatabase.t) :
  Game.tick get_ticks raw username inp (g, db) = Continue (g', db') ->
  (forall other, UserDatabase.get_high_score other db <= UserDatabase.get_high_score other db')
  /\ (forall other pw, UserDatabase.login other pw db' = UserDatabase.login other pw db)
  /\ (forall other, other <> username ->
        UserDatabase.users db' !! other = UserDatabase.users db !! other)
  /\ (db' <> db ->
      UserDatabase.get_high_score username db' = Score.current_score (Game.score_system g')).
Proof.
  intros Htick.
  destruct (tick_database get_ticks raw username inp g g' db db' Htick) as [-> | [_ ->]].
  - split; [intros other; lia |]. split; [reflexivity |]. split; [reflexivity |].
    intros H. now contradiction H.
  - split; [intros other; apply get_high_score_update_le |].
    split; [intros other pw; apply login_update_high_score |].
    split.
    + intros other Hne.
      pose proof (update_high_score_lookup db username
                    (Score.current_score (Game.score_system g')) other) as H.
      destruct (UserDatabase.users db !! other) as [u |],
               (UserDatabase.users (UserDatabase.update_high_score username
                  (Score.current_score (Game.score_system g')) db) !! other) as [u' |];
        try contradiction; [| reflexivity].
      f_equal. now apply H.
    + intros Hchanged.
      destruct (UserDatabase.users db !! username) as [user |] eqn:Hu.
      * destruct (Z.lt_ge_cases (Score.high_score (score user))
                    (Score.current_score (Game.score_system g'))) as [Hlt | Hge].
        -- now destruct (update_high_score_higher db username _ user Hu Hlt).
        -- exfalso. apply Hchanged.
           eapply update_high_score_not_higher; [exact Hu | lia].
      * exfalso. apply Hchanged. now apply update_high_score_unknown.
Qed.

Lemma tick_stored_scores_witness :
  (forall other, UserDatabase.get_high_score other db_alice
                 <= UserDatabase.get_high_score other (snd (after [press_space])))
  /\ (forall other pw, UserDatabase.login other pw (snd (after [press_space]))
                       = UserDatabase.login other pw db_alice)
  /\ (forall other, other <> "alice"%string ->
        UserDatabase.users (snd (after [press_space])) !! other
        = UserDatabase.users db_alice !! other)
  /\ (snd (after [press_space]) <> db_alice ->
      UserDatabase.get_high_score "alice" (snd (after [press_space]))
      = Score.current_score (Game.score_system (fst (after [press_space])))).
Proof.
  apply (tick_stored_scores clock_0 draws_0 "alice" press_space
           game_0 (fst (after [press_space])) db_alice (snd (after [press_space]))).
  vm_compute. reflexivity.
Defined.

(** X24. When the active part of an iteration runs for a player who
    has an account and leaves the current score above the session high
    score, the store afterwards holds for that player the larger of the
    score stored before and the current score. *)
Theorem active_tick_persists (get_ticks raw : nat -> Z) (username : string)
    (inp : Game.Input) (g g1 g' : Game.t) (db db' : UserDatabase.t) (user : User) :
  Game.before_active get_ticks raw inp g = Continue g1 ->
  Game.game_started g1 = true ->
  Game.paused g1 = false ->
  Game.tick get_ticks raw username inp (g, db) = Continue (g', db') ->
  Score.high_score (Game.score_system g') < Score.current_score (Game.score_system g') ->
  UserDatabase.users db !! username = Some user ->
  UserDatabase.get_high_score username db'
  = Z.max (UserDatabase.get_high_score username db)
          (Score.current_score (Game.score_system g')).
Proof.
  intros Hb Hs Hp Htick Hgt Hu. revert Htick.
  unfold Game.tick. cbn [fst snd]. rewrite Hb, Hs, Hp. cbn [andb negb].
  rewrite active_pair. generalize (end_of_active get_ticks raw g1). intros e [= -> <-].
  destruct (Z.gtb_spec (Score.current_score (Game.score_system g'))
              (Score.high_score (Game.score_system g'))) as [_ | Hle]; [| lia].
  unfold UserDatabase.get_high_score at 2. rewrite Hu.
  destruct (Z.lt_ge_cases (Score.high_score (score user))
              (Score.current_score (Game.score_system g'))) as [Hlt | Hge].
  - destruct (update_high_score_higher db username _ user Hu Hlt) as (-> & _). lia.
  - rewrite (update_high_score_not_higher db username _ user Hu) by lia.
    unfold UserDatabase.get_high_score. rewrite Hu. lia.
Qed.

Lemma active_tick_persists_witness :
  UserDatabase.get_high_score "alice" (snd (after [press_space]))
  = Z.max (UserDatabase.get_high_score "alice" db_alice)
          (Score.current_score (Game.score_system (fst (after [press_space])))).
Proof.
  apply (active_tick_persists clock_0 draws_0 "alice" press_space
           game_0 (entering press_space game_0) (fst (after [press_space]))
           db_alice (snd (after [press_space])) (User_init "alice" "secret")).
  - vm_compute. reflexivity.
  - vm_compute. reflexivity.
  - vm_compute. reflexivity.
  - vm_compute. reflexivity.
  - vm_compute. reflexivity.
  - vm_compute. reflexivity.
Defined.

(** ** The login and sign-up screens *)



Lemma login_screen_typing_username (db : UserDatabase.t) (pieces : list string)
    (rest : list FormEvent) (u p e : string) :
  display_login_screen db (typing pieces ++ rest) (mkForm u p username_field e)
  = display_login_screen db rest (mkForm (foldl String.append u pieces) p username_field e).
Proof.
  revert u. induction pieces as [| piece pieces IH]; intros u; [reflexivity |].
  cbn. apply IH.
Qed.

Lemma login_screen_typing_password (db : UserDatabase.t) (pieces : list string)
    (rest : list FormEvent) (u p e : string) :
  display_login_screen db (typing pieces ++ rest) (mkForm u p password_field e)
  = display_login_screen db rest (mkForm u (foldl String.append p pieces) password_field e).
Proof.
  revert p. induction pieces as [| piece pieces IH]; intros p; [reflexivity |].
  cbn. apply IH.
Qed.

(** X26. Typing a name, TAB, a password and RETURN into the fresh
    login screen returns the name when [db.login] accepts the pair, and
    otherwise leaves the screen waiting with both texts still in their
    fields, the password field active and the failure message set. *)
Theorem login_screen_typed (db : UserDatabase.t) (name_keys password_keys : list string) :
  display_login_screen db
    (typing name_keys ++ [F_KEYDOWN K_TAB ""%string] ++ typing password_keys
     ++ [F_KEYDOWN K_RETURN ""%string])
    empty_form
  = if UserDatabase.login (typed name_keys) (typed password_keys) db
    then Returned (typed name_keys)
    else Waiting (mkForm (typed name_keys) (typed password_keys) password_field
                         "Login failed. Try again.").
Proof.
  unfold empty_form. rewrite login_screen_typing_username. cbn [app display_login_screen].
  unfold switch_field. cbn [username_input password_input active_input error_message].
  rewrite login_screen_typing_password. cbn.
  destruct (UserDatabase.login _ _ db); reflexivity.
Qed.

(** X27. [display_signup_screen] returns only after creating an
    account whose name and password are both non-empty and whose name
    was free: the database it leaves is the old one with exactly that
    account added and saved, and no existing account is replaced. *)
Theorem signup_screen_creates_account (db db' : UserDatabase.t) (events : list FormEvent)
    (f : Form) :
  display_signup_screen db events f = Returned db' ->
  exists name pw,
    name <> ""%string /\ pw <> ""%string
    /\ UserDatabase.users db !! name = None
    /\ UserDatabase.create_account name pw db = (db', true)
    /\ UserDatabase.users db' = <[name := User_init name pw]> (UserDatabase.users db)
    /\ saved db'.
Proof.
  revert f. induction events as [| e events IH]; intros f; cbn; [discriminate |].
  destruct e as [| [] unicode |]; try discriminate; try apply IH.
  destruct (bool_decide (username_input f = ""%string)) eqn:Hu; [apply IH |].
  destruct (bool_decide (password_input f = ""%string)) eqn:Hp; [apply IH |].
  apply bool_decide_eq_false in Hu, Hp.
  destruct (UserDatabase.users db !! username_input f) as [user |] eqn:Hfree.
  - rewrite (create_account_taken db _ (password_input f) user Hfree). cbn. apply IH.
  - rewrite (create_account_free db _ (password_input f) Hfree). cbn [fst snd].
    intros [= <-]. exists (username_input f), (password_input f).
    split; [exact Hu |]. split; [exact Hp |]. split; [exact Hfree |].
    split; [now apply create_account_free |]. split; reflexivity.
Qed.

Lemma signup_screen_creates_account_witness :
  exists name pw,
    name <> ""%string /\ pw <> ""%string
    /\ UserDatabase.users db_empty !! name = None
    /\ UserDatabase.create_account name pw db_empty = (db_signed_up, true)
    /\ UserDatabase.users db_signed_up = <[name := User_init name pw]> (UserDatabase.users db_empty)
    /\ saved db_signed_up.
Proof.
  apply (signup_screen_creates_account db_empty db_signed_up
           ([F_KEYDOWN K_RETURN ""] ++ typing ["alice"%string] ++ [F_KEYDOWN K_RETURN ""]
            ++ [F_KEYDOWN K_TAB ""] ++ typing ["secrets"%string] ++ [F_KEYDOWN K_BACKSPACE ""]
            ++ [F_KEYDOWN K_RETURN ""])
           empty_form).
  vm_compute. reflexivity.
Defined.
